(** * TraceBook front-end: a shallow embedding of the view logic

    The development follows the source files of the repository:
    - [GeminiService]      services/geminiService.ts
    - [PendingScreen]      components/PendingScreen.tsx
    - [Tutorial]           the guided-tour overlay (getCardPosition)
    - [Firestore]          the document-store calls used by the admin console
    - [SiteManagement]     components/SiteManagementModal.tsx
    - [SiteManagementStats] components/SiteManagementModal_1.tsx
    - [Js]                 Array.prototype.sort and plain objects used as maps
    - [HeaderBar]          components/HeaderBar.tsx (groupedByMap)
    - [TutorialTour]       the guided-tour overlay (steps, handlers, controls)
    - [SiteManagementLoad] components/SiteManagementModal.tsx (fetchUsers)
    - [SiteManagementStatsDetail] components/SiteManagementModal_1.tsx
                           (fetchUserStats, the detail view's delete button)
    - [InfoModal]          components/InfoModal.tsx (handleClose)
    - [NotificationPanel]  NotificationPanel (formatTimeAgo), in the second part of
                           components/SiteManagementModal.tsx
    - [HeaderBarNotifications] components/HeaderBar.tsx (the bell)

    Definitions come first, one module per source file; the theorems about
    them follow in the second half of the file. *)

From Stdlib Require Import ZArith QArith Qminmax Lia Lqa.
From Stdlib Require Import Permutation Sorted Ascii.
From stdpp Require Import base option list gmap strings pretty.

Local Open Scope Z_scope.

(** ** JavaScript values shared by the modules *)

(** The double quote and the line feed, used inside template literals. *)
Definition dquote : string := String "034"%char EmptyString.
Definition newline : string := String "010"%char EmptyString.

(** An exception value.  The handlers only log it, so its message is all
    that is kept. *)
Inductive js_error : Type := JsError (message : string).

(** The outcome of a computation that may throw (or of an awaited promise
    that may reject). *)
Inductive result (A : Type) : Type :=
| Ok (a : A)
| Throw (e : js_error).
Arguments Ok {A} a.
Arguments Throw {A} e.

Definition rbind {A B : Type} (m : result A) (k : A → result B) : result B :=
  match m with
  | Ok a => k a
  | Throw e => Throw e
  end.

Notation "'let*' x ':=' m 'in' k" := (rbind m (fun x => k))
  (at level 10, x name, m at level 100, k at level 200, only parsing).

(** [try { body } catch (error) { handler }] *)
Definition try_catch {A : Type} (body : result A) (handler : js_error → result A)
  : result A :=
  match body with
  | Ok a => Ok a
  | Throw e => handler e
  end.

(** JavaScript truthiness of a possibly undefined string: [undefined] and
    the empty string are falsy. *)
Definition truthy_string (s : option string) : bool :=
  match s with
  | Some (String _ _) => true
  | Some EmptyString => false
  | None => false
  end.

(** [a || b] on a possibly undefined string with a string default. *)
Definition or_string (a : option string) (b : string) : string :=
  match a with
  | Some s => if truthy_string a then s else b
  | None => b
  end.

(** ** services/geminiService.ts *)
Module GeminiService.

(** [s.startsWith(p)] *)
Definition startsWith (s p : string) : bool := String.prefix p s.

(** The text after the first [n] characters. *)
Fixpoint drop (n : nat) (s : string) : string :=
  match n, s with
  | O, _ => s
  | S n', String _ s' => drop n' s'
  | S _, EmptyString => EmptyString
  end.

(** The alternatives of the anchored pattern
    [/^data:image\/(png|jpeg|jpg|heic|webp);base64,/], in the order of the
    alternation. *)
Definition data_url_prefixes : list string :=
  [ "data:image/png;base64,"; "data:image/jpeg;base64,";
    "data:image/jpg;base64,"; "data:image/heic;base64,";
    "data:image/webp;base64," ].

(** [s.replace(/^data:image\/(...);base64,/, '')]: the first alternative
    that matches at the start is removed, otherwise the string is kept. *)
Fixpoint strip_data_url_prefix (ps : list string) (s : string) : string :=
  match ps with
  | [] => s
  | p :: ps' =>
      if startsWith s p then drop (String.length p) s
      else strip_data_url_prefix ps' s
  end.

(** [s.split(',')]: the pieces between commas. *)
Fixpoint split_comma_go (cur : string) (s : string) : list string :=
  match s with
  | EmptyString => [String.rev cur]
  | String c s' =>
      if Ascii.eqb c ","%char then String.rev cur :: split_comma_go EmptyString s'
      else split_comma_go (String c cur) s'
  end.
Definition split_comma (s : string) : list string := split_comma_go EmptyString s.

(** One part of the request: the inline image, then the prompt. *)
Record GenerateContentRequest := {
  req_model : string;
  req_mimeType : string;
  req_data : option string;   (* [undefined] when the data URL had no comma *)
  req_text : string
}.

Record GenerateContentResponse := {
  text : option string        (* [response.text], possibly [undefined] *)
}.

(** The external collaborators of the function: the SDK constructor, the
    blob fetch followed by [FileReader.readAsDataURL], and the model
    endpoint.  Each may throw or reject. *)
Record Env := {
  newGoogleGenAI : result unit;
  readBlobAsDataURL : string → result string;
  generateContent : GenerateContentRequest → result GenerateContentResponse
}.

Definition prompt (restaurantName userComment : string) : string :=
  "I am at a restaurant called " +:+ dquote +:+ restaurantName +:+ dquote +:+ "." +:+ newline +:+
  "    Here is a photo of what I'm eating." +:+ newline +:+
  "    My initial thought is: " +:+ dquote +:+ userComment +:+ dquote +:+ "." +:+ newline +:+
  "    " +:+ newline +:+
  "    Please write a short, fun, 1-sentence social media style caption for this food. " +:+ newline +:+
  "    Mention the visual appeal if possible.".

(** The image normalised to raw base64. *)
Definition cleanBase64 (env : Env) (base64Image : string) : result (option string) :=
  if startsWith base64Image "blob:" then
    let* base64data := readBlobAsDataURL env base64Image in
    Ok (split_comma base64data !! 1%nat)
  else
    Ok (Some (strip_data_url_prefix data_url_prefixes base64Image)).

Definition request (data : option string) (userComment restaurantName : string)
  : GenerateContentRequest :=
  {| req_model := "gemini-2.5-flash";
     req_mimeType := "image/jpeg";
     req_data := data;
     req_text := prompt restaurantName userComment |}.

(** The statements of the [try] block up to the awaited model call. *)
Definition model_call (env : Env) (base64Image userComment restaurantName : string)
  : result GenerateContentResponse :=
  let* _ := newGoogleGenAI env in
  let* data := cleanBase64 env base64Image in
  generateContent env (request data userComment restaurantName).

Definition fallback : string := "Could not generate description.".

(** The value the returned promise settles with: [Ok] when it resolves,
    [Throw] when it rejects. *)
Definition generateFoodDescription (env : Env)
    (base64Image userComment restaurantName : string) : result string :=
  try_catch
    (let* response := model_call env base64Image userComment restaurantName in
     Ok (or_string (text response) "Delicious!"))
    (fun error => Ok fallback).


(** Raw base64: neither a blob reference nor a data URL the pattern knows. *)
Definition raw (s : string) : bool :=
  negb (startsWith s "blob:")
  && forallb (λ p, negb (startsWith s p)) data_url_prefixes.

End GeminiService.

(** ** components/PendingScreen.tsx *)
Module PendingScreen.

Record Props := {
  isCheckingStatus : bool;
  emailVerified : bool;
  adminApproved : bool
}.

(** The component state: the [resendCooldown] cell, and the timeout the
    effect has armed, if any.  The timeout carries the value its callback
    will store ([resendCooldown - 1] at the time it was armed) and fires
    after 1000 ms. *)
Record State := {
  resendCooldown : Z;
  timer : option Z
}.

(** [React.useState(0)] *)
Definition initial : State := {| resendCooldown := 0; timer := None |}.

(** The body of the effect for a given value of [resendCooldown]. *)
Definition effect (resendCooldown : Z) : option Z :=
  if 0 <? resendCooldown then Some (resendCooldown - 1) else None.

(** [setResendCooldown(v)]: storing the value already held does not
    re-render, so the effect keeps its timeout; otherwise the cleanup
    clears the old timeout and the effect runs for the new value. *)
Definition setResendCooldown (v : Z) (st : State) : State :=
  if v =? resendCooldown st then st
  else {| resendCooldown := v; timer := effect v |}.

(** One second passes: the armed timeout, if any, fires. *)
Definition tick (st : State) : State :=
  match timer st with
  | Some v => setResendCooldown v {| resendCooldown := resendCooldown st; timer := None |}
  | None => st
  end.


(** [handleResendVerification], given how the awaited
    [onResendVerification()] settled. *)
Definition handleResendVerification (sent : result unit) (st : State) : State :=
  match try_catch (let* _ := sent in Ok (setResendCooldown 60 st))
                  (fun error => Ok st) with
  | Ok st' => st'
  | Throw _ => st
  end.

Definition isManuallyApproved (p : Props) : bool :=
  adminApproved p && negb (emailVerified p).




(** The invariant the effect maintains between events. *)
Definition armed (st : State) : Prop := timer st = effect (resendCooldown st).

(** What can happen to the mounted component: a second passes, or an
    awaited [onResendVerification()] settles. *)
Inductive Event :=
| Tick
| ResendSettled (sent : result unit).

Definition step (st : State) (ev : Event) : State :=
  match ev with
  | Tick => tick st
  | ResendSettled sent => handleResendVerification sent st
  end.

Definition after (evs : list Event) (st : State) : State := fold_left step evs st.

(** The [onClick] props of the rendered buttons. *)
Inductive Action :=
| RefreshStatus          (* onRefreshStatus *)
| ResendVerification     (* handleResendVerification *)
| Logout.                (* onLogout *)

Record Control := {
  onClick : Action;
  controlDisabled : bool
}.

(** The buttons of the rendered screen, in document order. *)
Definition render (p : Props) (st : State) : list Control :=
  if isManuallyApproved p then
    [ {| onClick := RefreshStatus; controlDisabled := isCheckingStatus p |} ]
  else
    (if negb (emailVerified p)
     then [ {| onClick := ResendVerification;
               controlDisabled := 0 <? resendCooldown st |} ]
     else [])
    ++ [ {| onClick := RefreshStatus; controlDisabled := isCheckingStatus p |};
         {| onClick := Logout; controlDisabled := false |} ].

End PendingScreen.

(** ** The guided-tour overlay: getCardPosition *)
Module Tutorial.
Local Open Scope Q_scope.

(** A [DOMRect]: [top], [bottom] and [left] are derived from the origin
    and the size.  Layout coordinates are fractions of a pixel; they are
    kept as exact rationals. *)
Record DOMRect := {
  x : Q;
  y : Q;
  width : Q;
  height : Q
}.









End Tutorial.

(** ** Event handlers: state that survives a throw

    An [async] handler reads and writes the component state and the backend;
    what it wrote before an awaited call rejected stays written.  A handler
    is run to completion on the state it is started in. *)
Definition Handler (S A : Type) : Type := S → result A * S.

Definition hret {S A : Type} (a : A) : Handler S A := λ s, (Ok a, s).

Definition hbind {S A B : Type} (m : Handler S A) (k : A → Handler S B)
  : Handler S B :=
  λ s, match m s with
       | (Ok a, s') => k a s'
       | (Throw e, s') => (Throw e, s')
       end.

Definition hget {S : Type} : Handler S S := λ s, (Ok s, s).
Definition hmodify {S : Type} (f : S → S) : Handler S unit := λ s, (Ok tt, f s).

(** [try { body } catch (error) { handler } finally { cleanup }] *)
Definition htry {S A : Type} (body : Handler S A)
    (handler : js_error → Handler S A) (cleanup : Handler S unit) : Handler S A :=
  λ s, let '(r, s1) := match body s with
                       | (Ok a, s') => (Ok a, s')
                       | (Throw e, s') => handler e s'
                       end in
       match cleanup s1 with
       | (Ok _, s2) => (r, s2)
       | (Throw e, s2) => (Throw e, s2)
       end.

(** The state a handler leaves behind. *)
Definition run {S A : Type} (h : Handler S A) (s : S) : S := snd (h s).

Global Instance handler_ret (S : Type) : MRet (Handler S) := λ A a, hret a.
Global Instance handler_bind (S : Type) : MBind (Handler S) := λ A B k m, hbind m k.

(** ** The document store as the admin console uses it *)
Module Firestore.

(** Modelled from the spec: the [UserProfile] type of [src/types.ts], which
    is imported by both admin modals but is not among the sources.  The
    fields and the values of [status] and [role] are those of the data
    model: [status: pending|approved|rejected], [role: user|admin]. *)
Inductive Status := pending | approved | rejected.
Inductive Role := user | admin.

(** Modelled from the spec: the fields of [UserProfile] as the data model
    lists them; the optional ones may be [undefined]. *)
Record UserProfile := {
  email : string;
  displayName : option string;
  photoURL : option string;
  emailVerified : bool;
  status : Status;
  role : Role;
  provider : option string;
  createdAt : string;
  approvedBy : option string;
  approvedAt : option string
}.

Global Instance Status_eq_dec : EqDecision Status.
Proof. solve_decision. Defined.
Global Instance Role_eq_dec : EqDecision Role.
Proof. solve_decision. Defined.

(** [interface UserWithId extends UserProfile { id: string }] *)
Record UserWithId := {
  id : string;
  profile : UserProfile
}.

(** [{ ...p, status: s }] *)
Definition with_status (s : Status) (p : UserProfile) : UserProfile :=
  {| email := email p; displayName := displayName p; photoURL := photoURL p;
     emailVerified := emailVerified p; status := s; role := role p;
     provider := provider p; createdAt := createdAt p;
     approvedBy := approvedBy p; approvedAt := approvedAt p |}.

(** [{ ...p, status: s, approvedBy: by, approvedAt: at }] *)
Definition with_approval (s : Status) (by_ at_ : string) (p : UserProfile)
  : UserProfile :=
  {| email := email p; displayName := displayName p; photoURL := photoURL p;
     emailVerified := emailVerified p; status := s; role := role p;
     provider := provider p; createdAt := createdAt p;
     approvedBy := Some by_; approvedAt := Some at_ |}.

Definition on_profile (f : UserProfile → UserProfile) (u : UserWithId)
  : UserWithId :=
  {| id := id u; profile := f (profile u) |}.

(** Every field other than [status], [approvedBy] and [approvedAt] is the
    same in both profiles. *)
Definition same_outside_approval (p p' : UserProfile) : Prop :=
  email p' = email p ∧ displayName p' = displayName p
  ∧ photoURL p' = photoURL p ∧ emailVerified p' = emailVerified p
  ∧ role p' = role p ∧ provider p' = provider p ∧ createdAt p' = createdAt p.

(** The [serverTimestamp()] sentinel. *)
Inductive Timestamp := ServerTimestamp.

(** The fields the admin console writes into a notification document. *)
Record Notification := {
  recipientUid : string;
  type : string;
  message : string;
  read : bool;
  notifCreatedAt : Timestamp
}.

(** The two collections the handlers write: [users], keyed by document
    id, and [notifications], whose documents get ids from the store, in
    order of creation. *)
Record Db := {
  usersCol : gmap string UserProfile;
  notificationsCol : list Notification
}.

(** [updateDoc(doc(db, 'users', id), fields)]: rejects when the store
    refuses the write ([accept = false]: offline, access rules) and when
    there is no such document. *)
Definition updateDoc (accept : bool) (userId : string)
    (fields : UserProfile → UserProfile) (d : Db) : result Db :=
  if accept then
    match usersCol d !! userId with
    | Some p =>
        Ok {| usersCol := <[userId := fields p]> (usersCol d);
              notificationsCol := notificationsCol d |}
    | None => Throw (JsError "not-found")
    end
  else Throw (JsError "unavailable").

(** [addDoc(collection(db, 'notifications'), n)] *)
Definition addDoc (accept : bool) (n : Notification) (d : Db) : result Db :=
  if accept then
    Ok {| usersCol := usersCol d;
          notificationsCol := notificationsCol d ++ [n] |}
  else Throw (JsError "unavailable").

(** [deleteDoc(doc(db, 'users', id))]: deleting a missing document
    succeeds. *)
Definition deleteDoc (accept : bool) (userId : string) (d : Db) : result Db :=
  if accept then
    Ok {| usersCol := delete userId (usersCol d);
          notificationsCol := notificationsCol d |}
  else Throw (JsError "unavailable").

(** A message shown to the admin: a literal, or a key handed to [t]. *)
Inductive Text :=
| Lit (s : string)
| T (key : string).

End Firestore.

(** ** components/SiteManagementModal.tsx (the manual-override console) *)
Module SiteManagement.
Import Firestore.

(** ['menu' | 'users' | 'pendingUserDetail' | 'approvedUserDetail'] *)
Inductive ManagementView :=
| Menu | Users | PendingUserDetail | ApprovedUserDetail.

Inductive Direction := forward | back.

(** The [useState] cells of the component. *)
Record State := {
  isClosing : bool;
  currentView : ManagementView;
  isViewTransitioning : bool;
  transitionDirection : Direction;
  users : list UserWithId;
  isLoading : bool;
  fetchError : option string;
  actionLoading : option string;
  selectedUser : option UserWithId;
  showDeleteConfirm : bool;
  resendingEmail : bool;
  resendSuccess : bool
}.

(** A callback handed to [setTimeout(…, 150)], with the value of
    [currentView] its closure captured. *)
Inductive Timeout :=
| GoBackTimeout (viewAtCall : ManagementView)
| NavigateTimeout (view : ManagementView).

(** What a handler can touch: the component state, the store, the
    [alert] dialogs shown so far and the timeouts still to fire. *)
Record World := {
  ui : State;
  db : Db;
  alerts : list Text;
  timeouts : list Timeout
}.

Definition setCurrentView (v : ManagementView) (st : State) : State :=
  {| isClosing := isClosing st; currentView := v;
     isViewTransitioning := isViewTransitioning st;
     transitionDirection := transitionDirection st; users := users st;
     isLoading := isLoading st; fetchError := fetchError st;
     actionLoading := actionLoading st; selectedUser := selectedUser st;
     showDeleteConfirm := showDeleteConfirm st;
     resendingEmail := resendingEmail st; resendSuccess := resendSuccess st |}.

Definition setIsViewTransitioning (b : bool) (st : State) : State :=
  {| isClosing := isClosing st; currentView := currentView st;
     isViewTransitioning := b;
     transitionDirection := transitionDirection st; users := users st;
     isLoading := isLoading st; fetchError := fetchError st;
     actionLoading := actionLoading st; selectedUser := selectedUser st;
     showDeleteConfirm := showDeleteConfirm st;
     resendingEmail := resendingEmail st; resendSuccess := resendSuccess st |}.

Definition setTransitionDirection (d : Direction) (st : State) : State :=
  {| isClosing := isClosing st; currentView := currentView st;
     isViewTransitioning := isViewTransitioning st;
     transitionDirection := d; users := users st;
     isLoading := isLoading st; fetchError := fetchError st;
     actionLoading := actionLoading st; selectedUser := selectedUser st;
     showDeleteConfirm := showDeleteConfirm st;
     resendingEmail := resendingEmail st; resendSuccess := resendSuccess st |}.

(** [setUsers(prev => f(prev))] *)
Definition setUsers (f : list UserWithId → list UserWithId) (st : State) : State :=
  {| isClosing := isClosing st; currentView := currentView st;
     isViewTransitioning := isViewTransitioning st;
     transitionDirection := transitionDirection st; users := f (users st);
     isLoading := isLoading st; fetchError := fetchError st;
     actionLoading := actionLoading st; selectedUser := selectedUser st;
     showDeleteConfirm := showDeleteConfirm st;
     resendingEmail := resendingEmail st; resendSuccess := resendSuccess st |}.

Definition setActionLoading (a : option string) (st : State) : State :=
  {| isClosing := isClosing st; currentView := currentView st;
     isViewTransitioning := isViewTransitioning st;
     transitionDirection := transitionDirection st; users := users st;
     isLoading := isLoading st; fetchError := fetchError st;
     actionLoading := a; selectedUser := selectedUser st;
     showDeleteConfirm := showDeleteConfirm st;
     resendingEmail := resendingEmail st; resendSuccess := resendSuccess st |}.

(** [setSelectedUser(prev => f(prev))] *)
Definition setSelectedUser (f : option UserWithId → option UserWithId)
    (st : State) : State :=
  {| isClosing := isClosing st; currentView := currentView st;
     isViewTransitioning := isViewTransitioning st;
     transitionDirection := transitionDirection st; users := users st;
     isLoading := isLoading st; fetchError := fetchError st;
     actionLoading := actionLoading st; selectedUser := f (selectedUser st);
     showDeleteConfirm := showDeleteConfirm st;
     resendingEmail := resendingEmail st; resendSuccess := resendSuccess st |}.

Definition setShowDeleteConfirm (b : bool) (st : State) : State :=
  {| isClosing := isClosing st; currentView := currentView st;
     isViewTransitioning := isViewTransitioning st;
     transitionDirection := transitionDirection st; users := users st;
     isLoading := isLoading st; fetchError := fetchError st;
     actionLoading := actionLoading st; selectedUser := selectedUser st;
     showDeleteConfirm := b;
     resendingEmail := resendingEmail st; resendSuccess := resendSuccess st |}.

Definition setResendSuccess (b : bool) (st : State) : State :=
  {| isClosing := isClosing st; currentView := currentView st;
     isViewTransitioning := isViewTransitioning st;
     transitionDirection := transitionDirection st; users := users st;
     isLoading := isLoading st; fetchError := fetchError st;
     actionLoading := actionLoading st; selectedUser := selectedUser st;
     showDeleteConfirm := showDeleteConfirm st;
     resendingEmail := resendingEmail st; resendSuccess := b |}.

Definition on_ui (f : State → State) : Handler World unit :=
  hmodify (λ w, {| ui := f (ui w); db := db w; alerts := alerts w;
                   timeouts := timeouts w |}).

(** An awaited store call: the store changes only when it resolves. *)
Definition store (op : Db → result Db) : Handler World unit :=
  λ w, match op (db w) with
       | Ok d => (Ok tt, {| ui := ui w; db := d; alerts := alerts w;
                            timeouts := timeouts w |})
       | Throw e => (Throw e, w)
       end.

Definition alert (msg : Text) : Handler World unit :=
  hmodify (λ w, {| ui := ui w; db := db w; alerts := alerts w ++ [msg];
                   timeouts := timeouts w |}).

Definition setTimeout (t : Timeout) : Handler World unit :=
  hmodify (λ w, {| ui := ui w; db := db w; alerts := alerts w;
                   timeouts := timeouts w ++ [t] |}).

(** [selectedUser?.id === userId] *)
Definition selected_is (userId : string) (st : State) : bool :=
  match selectedUser st with
  | Some u => String.eqb (id u) userId
  | None => false
  end.

Definition navigateTo (view : ManagementView) : Handler World unit :=
  on_ui (setTransitionDirection forward) ;;
  on_ui (setIsViewTransitioning true) ;;
  setTimeout (NavigateTimeout view).

Definition goBack : Handler World unit :=
  on_ui (setTransitionDirection back) ;;
  on_ui (setIsViewTransitioning true) ;;
  on_ui (setShowDeleteConfirm false) ;;
  on_ui (setResendSuccess false) ;;
  w ← hget ;
  setTimeout (GoBackTimeout (currentView (ui w))).

(** The body of a timeout when it fires. *)
Definition fire (t : Timeout) : Handler World unit :=
  match t with
  | NavigateTimeout view =>
      on_ui (setCurrentView view) ;;
      on_ui (setIsViewTransitioning false)
  | GoBackTimeout viewAtCall =>
      match viewAtCall with
      | PendingUserDetail | ApprovedUserDetail =>
          on_ui (setCurrentView Users) ;;
          on_ui (setSelectedUser (λ _, None))
      | _ => on_ui (setCurrentView Menu)
      end ;;
      on_ui (setIsViewTransitioning false)
  end.

(** [users.filter(u => !u.emailVerified || u.status !== 'approved')] *)
Definition pendingUsers (us : list UserWithId) : list UserWithId :=
  List.filter (λ u, negb (emailVerified (profile u))
                    || negb (bool_decide (status (profile u) = approved))) us.

(** [users.filter(u => u.status === 'approved' && u.emailVerified)] *)
Definition approvedUsers (us : list UserWithId) : list UserWithId :=
  List.filter (λ u, bool_decide (status (profile u) = approved)
                    && emailVerified (profile u)) us.

(** [u => u.id === userId
          ? { ...u, status: 'approved', approvedBy: 'admin', approvedAt } : u] *)
Definition approvedEntry (approvedAt userId : string) (u : UserWithId) : UserWithId :=
  if String.eqb (id u) userId
  then on_profile (with_approval approved "admin" approvedAt) u
  else u.

(** [u => u.id === userId ? { ...u, status: 'rejected' } : u] *)
Definition rejectedEntry (userId : string) (u : UserWithId) : UserWithId :=
  if String.eqb (id u) userId then on_profile (with_status rejected) u else u.

Definition approvalMessage (language : string) : string :=
  if String.eqb language "zh"
  then "欢迎！您的账号已被管理员手动批准。您现在可以开始添加您的美食记忆了。"
  else "Welcome! Your account has been manually approved by an admin. You can now start adding your food memories.".

(** [handleApproveUser(userId)]; [now] is [new Date().toISOString()], and
    the two flags say whether the store accepts the update and the new
    notification. *)
Definition handleApproveUser (language now : string)
    (acceptUpdate acceptAdd : bool) (userId : string) : Handler World unit :=
  on_ui (setActionLoading (Some userId)) ;;
  htry
    (let approvedAt := now in
     store (updateDoc acceptUpdate userId (with_approval approved "admin" approvedAt)) ;;
     store (addDoc acceptAdd
              {| recipientUid := userId;
                 type := "admin_approved";
                 message := approvalMessage language;
                 read := false;
                 notifCreatedAt := ServerTimestamp |}) ;;
     on_ui (setUsers (map (approvedEntry approvedAt userId))) ;;
     w ← hget ;
     if selected_is userId (ui w)
     then on_ui (setSelectedUser (λ prev,
                   match prev with
                   | Some p => Some (on_profile (with_approval approved "admin" approvedAt) p)
                   | None => None
                   end))
     else mret tt)
    (λ error, alert (Lit "Failed to approve user"))
    (on_ui (setActionLoading None)).

(** [handleRejectUser(userId)]; [confirmed] is what [window.confirm]
    returned. *)
Definition handleRejectUser (confirmed acceptUpdate : bool) (userId : string)
  : Handler World unit :=
  if negb confirmed then mret tt
  else
    on_ui (setActionLoading (Some userId)) ;;
    htry
      (store (updateDoc acceptUpdate userId (with_status rejected)) ;;
       on_ui (setUsers (map (rejectedEntry userId))) ;;
       w ← hget ;
       if selected_is userId (ui w)
       then on_ui (setSelectedUser (λ prev,
                     match prev with
                     | Some p => Some (on_profile (with_status rejected) p)
                     | None => None
                     end))
       else mret tt)
      (λ error, alert (T "saveFailed"))
      (on_ui (setActionLoading None)).

(** [handleDeleteUser(userId)] *)
Definition handleDeleteUser (acceptDelete : bool) (userId : string)
  : Handler World unit :=
  on_ui (setActionLoading (Some userId)) ;;
  htry
    (store (deleteDoc acceptDelete userId) ;;
     on_ui (setUsers (List.filter (λ u, negb (String.eqb (id u) userId)))) ;;
     on_ui (setShowDeleteConfirm false) ;;
     on_ui (setSelectedUser (λ _, None)) ;;
     goBack)
    (λ error, alert (T "saveFailed"))
    (on_ui (setActionLoading None)).

Definition openPendingUserDetail (u : UserWithId) : Handler World unit :=
  on_ui (setSelectedUser (λ _, Some u)) ;;
  navigateTo PendingUserDetail.

Definition openApprovedUserDetail (u : UserWithId) : Handler World unit :=
  on_ui (setSelectedUser (λ _, Some u)) ;;
  on_ui (setShowDeleteConfirm false) ;;
  navigateTo ApprovedUserDetail.

(** The [onClick] expressions of the rendered buttons. *)
Inductive Action :=
| GoBack                                     (* goBack *)
| Close                                      (* handleClose *)
| NavigateTo (view : ManagementView)         (* () => navigateTo(view) *)
| FetchUsers                                 (* fetchUsers *)
| OpenPendingUserDetail (u : UserWithId)     (* () => openPendingUserDetail(user) *)
| OpenApprovedUserDetail (u : UserWithId)    (* () => openApprovedUserDetail(user) *)
| ResendVerification (userId email : string) (* () => handleResendVerification(id, email) *)
| ApproveUser (userId : string)              (* () => handleApproveUser(id) *)
| RejectUser (userId : string)               (* () => handleRejectUser(id) *)
| ShowDeleteConfirm (b : bool)               (* () => setShowDeleteConfirm(b) *)
| DeleteUser (userId : string).              (* () => handleDeleteUser(id) *)

Record Control := {
  onClick : Action;
  disabled : bool
}.

Definition button (a : Action) : Control := {| onClick := a; disabled := false |}.

(** [actionLoading === userId] *)
Definition loading_is (userId : string) (st : State) : bool :=
  match actionLoading st with
  | Some a => String.eqb a userId
  | None => false
  end.

(** The buttons of the rendered modal, in document order. *)
Definition render (st : State) : list Control :=
  (match currentView st with Menu => [] | _ => [button GoBack] end)
  ++ [button Close]
  ++ match currentView st with
     | Menu => [button (NavigateTo Users)]
     | Users =>
         if isLoading st then []
         else if truthy_string (fetchError st) then [button FetchUsers]
         else map (λ u, button (OpenPendingUserDetail u)) (pendingUsers (users st))
              ++ map (λ u, button (OpenApprovedUserDetail u)) (approvedUsers (users st))
     | PendingUserDetail =>
         match selectedUser st with
         | None => []
         | Some su =>
             (if negb (emailVerified (profile su))
              then [ {| onClick := ResendVerification (id su) (email (profile su));
                        disabled := resendingEmail st || resendSuccess st |} ]
              else [])
             ++ (if negb (bool_decide (status (profile su) = approved))
                 then [ {| onClick := ApproveUser (id su);
                           disabled := loading_is (id su) st |};
                        {| onClick := RejectUser (id su);
                           disabled := loading_is (id su) st |} ]
                 else [])
         end
     | ApprovedUserDetail =>
         match selectedUser st with
         | None => []
         | Some su =>
             if negb (bool_decide (role (profile su) = admin)) then
               if negb (showDeleteConfirm st)
               then [button (ShowDeleteConfirm true)]
               else [ button (ShowDeleteConfirm false);
                      {| onClick := DeleteUser (id su);
                         disabled := loading_is (id su) st |} ]
             else []
         end
     end.

End SiteManagement.

(** ** components/SiteManagementModal_1.tsx (the console with usage stats) *)
Module SiteManagementStats.
Import Firestore.

(** ['menu' | 'users' | 'userDetail'] *)
Inductive ManagementView := Menu | Users | UserDetail.

Inductive Direction := forward | back.

Record UserStats := {
  sharedMapsCreated : Z;
  joinedMaps : Z;
  totalExperiences : Z
}.

(** The [useState] cells of the component. *)
Record State := {
  isClosing : bool;
  currentView : ManagementView;
  isViewTransitioning : bool;
  transitionDirection : Direction;
  users : list UserWithId;
  isLoading : bool;
  fetchError : option string;
  actionLoading : option string;
  selectedUser : option UserWithId;
  userStats : option UserStats;
  isLoadingStats : bool;
  reminderSent : bool;
  isSendingReminder : bool
}.

Inductive Timeout :=
| GoBackTimeout (viewAtCall : ManagementView)
| NavigateTimeout (view : ManagementView).

Record World := {
  ui : State;
  db : Db;
  alerts : list Text;
  timeouts : list Timeout
}.

Definition setCurrentView (v : ManagementView) (st : State) : State :=
  {| isClosing := isClosing st; currentView := v;
     isViewTransitioning := isViewTransitioning st;
     transitionDirection := transitionDirection st; users := users st;
     isLoading := isLoading st; fetchError := fetchError st;
     actionLoading := actionLoading st; selectedUser := selectedUser st;
     userStats := userStats st; isLoadingStats := isLoadingStats st;
     reminderSent := reminderSent st; isSendingReminder := isSendingReminder st |}.

Definition setIsViewTransitioning (b : bool) (st : State) : State :=
  {| isClosing := isClosing st; currentView := currentView st;
     isViewTransitioning := b;
     transitionDirection := transitionDirection st; users := users st;
     isLoading := isLoading st; fetchError := fetchError st;
     actionLoading := actionLoading st; selectedUser := selectedUser st;
     userStats := userStats st; isLoadingStats := isLoadingStats st;
     reminderSent := reminderSent st; isSendingReminder := isSendingReminder st |}.

Definition setTransitionDirection (d : Direction) (st : State) : State :=
  {| isClosing := isClosing st; currentView := currentView st;
     isViewTransitioning := isViewTransitioning st;
     transitionDirection := d; users := users st;
     isLoading := isLoading st; fetchError := fetchError st;
     actionLoading := actionLoading st; selectedUser := selectedUser st;
     userStats := userStats st; isLoadingStats := isLoadingStats st;
     reminderSent := reminderSent st; isSendingReminder := isSendingReminder st |}.

(** [setUsers(prev => f(prev))] *)
Definition setUsers (f : list UserWithId → list UserWithId) (st : State) : State :=
  {| isClosing := isClosing st; currentView := currentView st;
     isViewTransitioning := isViewTransitioning st;
     transitionDirection := transitionDirection st; users := f (users st);
     isLoading := isLoading st; fetchError := fetchError st;
     actionLoading := actionLoading st; selectedUser := selectedUser st;
     userStats := userStats st; isLoadingStats := isLoadingStats st;
     reminderSent := reminderSent st; isSendingReminder := isSendingReminder st |}.

Definition setActionLoading (a : option string) (st : State) : State :=
  {| isClosing := isClosing st; currentView := currentView st;
     isViewTransitioning := isViewTransitioning st;
     transitionDirection := transitionDirection st; users := users st;
     isLoading := isLoading st; fetchError := fetchError st;
     actionLoading := a; selectedUser := selectedUser st;
     userStats := userStats st; isLoadingStats := isLoadingStats st;
     reminderSent := reminderSent st; isSendingReminder := isSendingReminder st |}.

Definition setSelectedUser (u : option UserWithId) (st : State) : State :=
  {| isClosing := isClosing st; currentView := currentView st;
     isViewTransitioning := isViewTransitioning st;
     transitionDirection := transitionDirection st; users := users st;
     isLoading := isLoading st; fetchError := fetchError st;
     actionLoading := actionLoading st; selectedUser := u;
     userStats := userStats st; isLoadingStats := isLoadingStats st;
     reminderSent := reminderSent st; isSendingReminder := isSendingReminder st |}.

Definition setUserStats (s : option UserStats) (st : State) : State :=
  {| isClosing := isClosing st; currentView := currentView st;
     isViewTransitioning := isViewTransitioning st;
     transitionDirection := transitionDirection st; users := users st;
     isLoading := isLoading st; fetchError := fetchError st;
     actionLoading := actionLoading st; selectedUser := selectedUser st;
     userStats := s; isLoadingStats := isLoadingStats st;
     reminderSent := reminderSent st; isSendingReminder := isSendingReminder st |}.

Definition setReminderSent (b : bool) (st : State) : State :=
  {| isClosing := isClosing st; currentView := currentView st;
     isViewTransitioning := isViewTransitioning st;
     transitionDirection := transitionDirection st; users := users st;
     isLoading := isLoading st; fetchError := fetchError st;
     actionLoading := actionLoading st; selectedUser := selectedUser st;
     userStats := userStats st; isLoadingStats := isLoadingStats st;
     reminderSent := b; isSendingReminder := isSendingReminder st |}.

Definition setIsSendingReminder (b : bool) (st : State) : State :=
  {| isClosing := isClosing st; currentView := currentView st;
     isViewTransitioning := isViewTransitioning st;
     transitionDirection := transitionDirection st; users := users st;
     isLoading := isLoading st; fetchError := fetchError st;
     actionLoading := actionLoading st; selectedUser := selectedUser st;
     userStats := userStats st; isLoadingStats := isLoadingStats st;
     reminderSent := reminderSent st; isSendingReminder := b |}.

Definition on_ui (f : State → State) : Handler World unit :=
  hmodify (λ w, {| ui := f (ui w); db := db w; alerts := alerts w;
                   timeouts := timeouts w |}).

Definition store (op : Db → result Db) : Handler World unit :=
  λ w, match op (db w) with
       | Ok d => (Ok tt, {| ui := ui w; db := d; alerts := alerts w;
                            timeouts := timeouts w |})
       | Throw e => (Throw e, w)
       end.

Definition alert (msg : Text) : Handler World unit :=
  hmodify (λ w, {| ui := ui w; db := db w; alerts := alerts w ++ [msg];
                   timeouts := timeouts w |}).

Definition setTimeout (t : Timeout) : Handler World unit :=
  hmodify (λ w, {| ui := ui w; db := db w; alerts := alerts w;
                   timeouts := timeouts w ++ [t] |}).

Definition navigateTo (view : ManagementView) : Handler World unit :=
  on_ui (setTransitionDirection forward) ;;
  on_ui (setIsViewTransitioning true) ;;
  setTimeout (NavigateTimeout view).

Definition goBack : Handler World unit :=
  on_ui (setTransitionDirection back) ;;
  on_ui (setIsViewTransitioning true) ;;
  w ← hget ;
  setTimeout (GoBackTimeout (currentView (ui w))).

(** The body of a timeout when it fires. *)
Definition fire (t : Timeout) : Handler World unit :=
  match t with
  | NavigateTimeout view =>
      on_ui (setCurrentView view) ;;
      on_ui (setIsViewTransitioning false)
  | GoBackTimeout viewAtCall =>
      match viewAtCall with
      | UserDetail =>
          on_ui (setCurrentView Users) ;;
          on_ui (setSelectedUser None) ;;
          on_ui (setUserStats None) ;;
          on_ui (setReminderSent false)
      | _ => on_ui (setCurrentView Menu)
      end ;;
      on_ui (setIsViewTransitioning false)
  end.

(** [sendVerificationReminder(userId, userEmail)] *)
Definition sendVerificationReminder (language : string) (acceptAdd : bool)
    (userId userEmail : string) : Handler World unit :=
  on_ui (setIsSendingReminder true) ;;
  htry
    (store (addDoc acceptAdd
              {| recipientUid := userId;
                 type := "system";
                 message :=
                   if String.eqb language "zh"
                   then "请验证您的邮箱地址。登录后，前往设置重新发送验证邮件。"
                   else "Please verify your email address. After logging in, go to Settings to resend the verification email.";
                 read := false;
                 notifCreatedAt := ServerTimestamp |}) ;;
     on_ui (setReminderSent true))
    (λ error, alert (Lit (if String.eqb language "zh"
                          then "发送提醒失败" else "Failed to send reminder")))
    (on_ui (setIsSendingReminder false)).

(** [users.filter(u => u.status === 'approved')] *)
Definition approvedUsers (us : list UserWithId) : list UserWithId :=
  List.filter (λ u, bool_decide (status (profile u) = approved)) us.

(** [users.filter(u => u.status === 'pending')] *)
Definition pendingUsers (us : list UserWithId) : list UserWithId :=
  List.filter (λ u, bool_decide (status (profile u) = pending)) us.

(** [u => u.id === userId ? { ...u, status: 'approved' } : u] *)
Definition approvedEntry (userId : string) (u : UserWithId) : UserWithId :=
  if String.eqb (id u) userId then on_profile (with_status approved) u else u.

(** [u => u.id === userId ? { ...u, status: 'rejected' } : u] *)
Definition rejectedEntry (userId : string) (u : UserWithId) : UserWithId :=
  if String.eqb (id u) userId then on_profile (with_status rejected) u else u.

(** [handleApproveUser(userId)] *)
Definition handleApproveUser (acceptUpdate acceptAdd : bool) (userId : string)
  : Handler World unit :=
  on_ui (setActionLoading (Some userId)) ;;
  htry
    (store (updateDoc acceptUpdate userId (with_status approved)) ;;
     store (addDoc acceptAdd
              {| recipientUid := userId;
                 type := "join_approved";
                 message := "Welcome! Your account has been approved. You can now start adding your food memories.";
                 read := false;
                 notifCreatedAt := ServerTimestamp |}) ;;
     on_ui (setUsers (map (approvedEntry userId))))
    (λ error, alert (Lit "Failed to approve user"))
    (on_ui (setActionLoading None)).

(** [handleRejectUser(userId)] *)
Definition handleRejectUser (confirmed acceptUpdate : bool) (userId : string)
  : Handler World unit :=
  if negb confirmed then mret tt
  else
    on_ui (setActionLoading (Some userId)) ;;
    htry
      (store (updateDoc acceptUpdate userId (with_status rejected)) ;;
       on_ui (setUsers (map (rejectedEntry userId))))
      (λ error, alert (T "saveFailed"))
      (on_ui (setActionLoading None)).

(** [handleDeleteUser(userId, email)] *)
Definition handleDeleteUser (confirmed acceptDelete : bool)
    (userId email : string) : Handler World unit :=
  if negb confirmed then mret tt
  else
    on_ui (setActionLoading (Some userId)) ;;
    htry
      (store (deleteDoc acceptDelete userId) ;;
       on_ui (setUsers (List.filter (λ u, negb (String.eqb (id u) userId)))))
      (λ error, alert (T "saveFailed"))
      (on_ui (setActionLoading None)).

(** The [onClick] expressions of the rendered buttons and rows. *)
Inductive Action :=
| GoBack                                          (* goBack *)
| Close                                           (* handleClose *)
| NavigateTo (view : ManagementView)              (* () => navigateTo(view) *)
| FetchUsers                                      (* fetchUsers *)
| ApproveUser (userId : string)                   (* () => handleApproveUser(user.id) *)
| RejectUser (userId : string)                    (* () => handleRejectUser(user.id) *)
| ViewUserDetail (u : UserWithId)                 (* () => viewUserDetail(user) *)
| DeleteUser (userId email : string)              (* handleDeleteUser(user.id, user.email) *)
| SendVerificationReminder (userId email : string)
| DeleteUserThenGoBack (userId email : string).   (* handleDeleteUser(id, email); goBack() *)

Record Control := {
  onClick : Action;
  disabled : bool
}.

Definition button (a : Action) : Control := {| onClick := a; disabled := false |}.

Definition loading_is (userId : string) (st : State) : bool :=
  match actionLoading st with
  | Some a => String.eqb a userId
  | None => false
  end.

(** The clickable elements of the rendered modal, in document order. *)
Definition render (st : State) : list Control :=
  (match currentView st with Menu => [] | _ => [button GoBack] end)
  ++ [button Close]
  ++ match currentView st with
     | Menu => [button (NavigateTo Users)]
     | Users =>
         if isLoading st then []
         else if truthy_string (fetchError st) then [button FetchUsers]
         else
           concat (map (λ u,
                     if loading_is (id u) st then []
                     else [button (ApproveUser (id u)); button (RejectUser (id u))])
                   (pendingUsers (users st)))
           ++ concat (map (λ u,
                        button (ViewUserDetail u)
                        :: (if loading_is (id u) st then []
                            else [button (DeleteUser (id u) (email (profile u)))]))
                      (approvedUsers (users st)))
     | UserDetail =>
         match selectedUser st with
         | None => []
         | Some su =>
             (if negb (emailVerified (profile su)) then
                if reminderSent st then []
                else [ {| onClick := SendVerificationReminder (id su) (email (profile su));
                          disabled := isSendingReminder st |} ]
              else [])
             ++ [button (DeleteUserThenGoBack (id su) (email (profile su)))]
         end
     end.

End SiteManagementStats.

(** ** JavaScript arrays and plain objects, as HeaderBar uses them *)
Module Js.

(** [Array.prototype.sort(compare)].  The sort is stable, and for a
    consistent comparator its result is determined: elements are in
    ascending order of the comparator, ties in their original order.  It
    is computed here by insertion from the right. *)
Section Sort.
Context {A : Type} (compare : A → A → Z).

Fixpoint insert (x : A) (l : list A) : list A :=
  match l with
  | [] => [x]
  | y :: l' => if compare x y <=? 0 then x :: l else y :: insert x l'
  end.

Definition sort (l : list A) : list A := fold_right insert [] l.
End Sort.

(** An array index: a canonical decimal numeral below [2^32 - 1]. *)
Fixpoint decimal_value (acc : N) (s : string) : option N :=
  match s with
  | EmptyString => Some acc
  | String c s' =>
      match Ascii.is_nat c with
      | Some d => decimal_value (10 * acc + N.of_nat d)%N s'
      | None => None
      end
  end.

Definition array_index (key : string) : option N :=
  match key with
  | EmptyString => None
  | String "0"%char EmptyString => Some 0%N
  | String "0"%char _ => None
  | _ =>
      match decimal_value 0%N key with
      | Some n => if (n <? 2 ^ 32 - 1)%N then Some n else None
      | None => None
      end
  end.

(** The order of the own keys of an object: array indices first, in
    ascending numeric order, then the other strings in the order they
    were created.  [key_precedes k k'] says that a new key [k] is listed
    before the existing key [k']. *)
Definition key_precedes (k k' : string) : bool :=
  match array_index k, array_index k' with
  | Some a, Some b => (a <? b)%N
  | Some _, None => true
  | None, _ => false
  end.

(** An object used as a map: its own properties in key order. *)
Definition object (V : Type) : Type := list (string * V).

Section Object.
Context {V : Type}.

(** The own property [o[k]]. *)
Fixpoint get_own (k : string) (o : object V) : option V :=
  match o with
  | [] => None
  | (k', v) :: o' => if String.eqb k' k then Some v else get_own k o'
  end.

(** [o[k] = v] for a key the object does not own yet. *)
Fixpoint define (k : string) (v : V) (o : object V) : object V :=
  match o with
  | [] => [(k, v)]
  | (k', v') :: o' =>
      if key_precedes k k' then (k, v) :: o
      else (k', v') :: define k v o'
  end.

(** The value of an own property is replaced or mutated in place. *)
Fixpoint update (k : string) (f : V → V) (o : object V) : object V :=
  match o with
  | [] => []
  | (k', v) :: o' =>
      if String.eqb k' k then (k', f v) :: o'
      else (k', v) :: update k f o'
  end.
End Object.

(** The property names every object literal inherits from
    [Object.prototype]; reading one of them on [{}] yields a function or
    the prototype itself, never [undefined]. *)
Definition inherited_names : list string :=
  [ "constructor"; "__defineGetter__"; "__defineSetter__"; "hasOwnProperty";
    "__lookupGetter__"; "__lookupSetter__"; "isPrototypeOf";
    "propertyIsEnumerable"; "toString"; "valueOf"; "__proto__";
    "toLocaleString" ].

Definition inherited (k : string) : bool :=
  existsb (String.eqb k) inherited_names.

(** A comparator that orders strings by their code units: one of the
    orders [localeCompare] may implement. *)
Definition codeUnitCompare (a b : string) : Z :=
  match String.compare a b with
  | Eq => 0
  | Lt => -1
  | Gt => 1
  end.

End Js.

(** ** components/HeaderBar.tsx *)
Module HeaderBar.

(** Modelled from the spec: the [Restaurant] type of [src/types.ts], which
    is not among the sources: a place with a name, an address and its
    visits, each visit carrying a grade and who added it. *)
Record Visit := {
  grade : string;
  addedBy : string
}.

(** [interface RestaurantWithMap extends Restaurant { mapId; mapName }] *)
Record RestaurantWithMap := {
  id : string;
  name : string;
  address : string;
  visits : list Visit;
  mapId : string;
  mapName : string
}.

(** [{ mapName: string; restaurants: RestaurantWithMap[] }] *)
Record Group := {
  groupMapName : string;
  restaurants : list RestaurantWithMap
}.

Global Instance Visit_eq_dec : EqDecision Visit.
Proof. solve_decision. Defined.
Global Instance RestaurantWithMap_eq_dec : EqDecision RestaurantWithMap.
Proof. solve_decision. Defined.

Section GroupedByMap.
(** [a.localeCompare(b)]: negative, zero or positive. *)
Variable localeCompare : string → string → Z.

(** What reading [groups[k]] finds. *)
Inductive property :=
| Own (g : Group)
| Inherited
| Undefined.

Definition get (k : string) (groups : Js.object Group) : property :=
  match Js.get_own k groups with
  | Some g => Own g
  | None => if Js.inherited k then Inherited else Undefined
  end.

Definition push (r : RestaurantWithMap) (g : Group) : Group :=
  {| groupMapName := groupMapName g; restaurants := restaurants g ++ [r] |}.

(** The body of [allRestaurantsWithMaps.forEach(r => …)]. *)
Definition addRestaurant (groups : Js.object Group) (r : RestaurantWithMap)
  : result (Js.object Group) :=
  let groups1 :=
    match get (mapId r) groups with
    | Undefined =>
        Js.define (mapId r) {| groupMapName := mapName r; restaurants := [] |} groups
    | _ => groups
    end in
  match get (mapId r) groups1 with
  | Own _ => Ok (Js.update (mapId r) (push r) groups1)
  | _ => Throw (JsError "Cannot read properties of undefined (reading 'push')")
  end.

Fixpoint forEach (groups : Js.object Group) (rs : list RestaurantWithMap)
  : result (Js.object Group) :=
  match rs with
  | [] => Ok groups
  | r :: rs' =>
      let* groups' := addRestaurant groups r in
      forEach groups' rs'
  end.

(** [(a, b) => a.name.localeCompare(b.name)] *)
Definition byName (a b : RestaurantWithMap) : Z :=
  localeCompare (name a) (name b).

Definition sortRestaurants (g : Group) : Group :=
  {| groupMapName := groupMapName g;
     restaurants := Js.sort byName (restaurants g) |}.

(** [Object.values(groups).forEach(group => group.restaurants.sort(…))],
    seen from the entry that holds the group. *)
Definition sortEntry (e : string * Group) : string * Group :=
  let '(k, g) := e in (k, sortRestaurants g).

(** [id === activeMapId], where [activeMapId] may be [undefined]. *)
Definition is_active (activeMapId : option string) (k : string) : bool :=
  match activeMapId with
  | Some a => String.eqb k a
  | None => false
  end.

(** The comparator of [entries.sort]. *)
Definition compareEntries (activeMapId : option string)
    (a b : string * Group) : Z :=
  let '(idA, groupA) := a in
  let '(idB, groupB) := b in
  if is_active activeMapId idA then -1
  else if is_active activeMapId idB then 1
  else localeCompare (groupMapName groupA) (groupMapName groupB).

(** The memoised [groupedByMap]. *)
Definition groupedByMap (allRestaurantsWithMaps : list RestaurantWithMap)
    (activeMapId : option string) : result (list (string * Group)) :=
  let* groups := forEach [] allRestaurantsWithMaps in
  let groups := map sortEntry groups in
  let entries := groups in
  Ok (Js.sort (compareEntries activeMapId) entries).

(** The restaurants of map [k], in list order. *)
Definition ofMap (k : string) (rs : list RestaurantWithMap) : list RestaurantWithMap :=
  List.filter (λ r, String.eqb (mapId r) k) rs.

(** The group the loop holds under key [k] once it has gone through [rs]:
    named after the first restaurant of the map, holding all of them. *)
Definition builtGroup (k : string) (rs : list RestaurantWithMap) : option Group :=
  match ofMap k rs with
  | [] => None
  | r0 :: _ => Some {| groupMapName := mapName r0; restaurants := ofMap k rs |}
  end.

(** The loop invariant: the object owns one key per map seen so far, and
    holds under it the group built from the restaurants seen so far. *)
Definition built (groups : Js.object Group) (seen : list RestaurantWithMap) : Prop :=
  NoDup (map fst groups) ∧ ∀ k, Js.get_own k groups = builtGroup k seen.

(** No map id is a name inherited from [Object.prototype]. *)
Definition plainMapIds (rs : list RestaurantWithMap) : bool :=
  forallb (λ r, negb (Js.inherited (mapId r))) rs.

(** Restaurants of the same map carry the same map name. *)
Definition mapNamesAgree (rs : list RestaurantWithMap) : bool :=
  forallb (λ r1, forallb (λ r2,
    implb (String.eqb (mapId r1) (mapId r2))
          (String.eqb (mapName r1) (mapName r2))) rs) rs.

(** Within a map, two names compare equal only for the same record. *)
Definition namesDistinct (rs : list RestaurantWithMap) : bool :=
  forallb (λ r1, forallb (λ r2,
    implb (String.eqb (mapId r1) (mapId r2)
           && (localeCompare (name r1) (name r2) =? 0))
          (bool_decide (r1 = r2))) rs) rs.

(** Apart from the active map, two map names compare equal only for the
    same map. *)
Definition mapNamesDistinct (rs : list RestaurantWithMap)
    (activeMapId : option string) : bool :=
  forallb (λ r1, forallb (λ r2,
    implb (negb (is_active activeMapId (mapId r1))
           && negb (is_active activeMapId (mapId r2))
           && (localeCompare (mapName r1) (mapName r2) =? 0))
          (String.eqb (mapId r1) (mapId r2))) rs) rs.

(** The order of two entries by map name. *)
Definition byMapName (a b : string * Group) : Z :=
  localeCompare (groupMapName (snd a)) (groupMapName (snd b)).
End GroupedByMap.

End HeaderBar.


(** ** Concrete inputs used by the examples below *)
Module Samples.

(** The model endpoint answers with an empty text. *)
Definition env_empty_text : GeminiService.Env :=
  {| GeminiService.newGoogleGenAI := Ok tt;
     GeminiService.readBlobAsDataURL := λ _, Throw (JsError "no blob");
     GeminiService.generateContent := λ _, Ok {| GeminiService.text := Some EmptyString |} |}.

(** The model endpoint answers with a caption. *)
Definition env_caption : GeminiService.Env :=
  {| GeminiService.newGoogleGenAI := Ok tt;
     GeminiService.readBlobAsDataURL := λ _, Throw (JsError "no blob");
     GeminiService.generateContent := λ _, Ok {| GeminiService.text := Some "Golden, crispy perfection!" |} |}.

(** The model endpoint rejects the request. *)
Definition env_offline : GeminiService.Env :=
  {| GeminiService.newGoogleGenAI := Ok tt;
     GeminiService.readBlobAsDataURL := λ _, Throw (JsError "no blob");
     GeminiService.generateContent := λ _, Throw (JsError "503") |}.

Definition image : string := "data:image/jpeg;base64,/9j/4AAQ".

(** A target near the top of a viewport 568 px wide and 280 px high. *)
Definition top_target : Tutorial.DOMRect :=
  {| Tutorial.x := 8; Tutorial.y := 8; Tutorial.width := 40; Tutorial.height := 40 |}.


(** Admin-console records: an approved administrator, a rejected sign-up
    and a sign-up waiting for approval. *)
Definition adminProfile : Firestore.UserProfile :=
  {| Firestore.email := "root@tracebook.app"; Firestore.displayName := Some "Root";
     Firestore.photoURL := None; Firestore.emailVerified := true;
     Firestore.status := Firestore.approved; Firestore.role := Firestore.admin;
     Firestore.provider := Some "password"; Firestore.createdAt := "2024-01-01T00:00:00.000Z";
     Firestore.approvedBy := None; Firestore.approvedAt := None |}.

Definition adminUser : Firestore.UserWithId :=
  {| Firestore.id := "uid-admin"; Firestore.profile := adminProfile |}.

Definition rejectedProfile : Firestore.UserProfile :=
  {| Firestore.email := "sam@example.com"; Firestore.displayName := None;
     Firestore.photoURL := None; Firestore.emailVerified := true;
     Firestore.status := Firestore.rejected; Firestore.role := Firestore.user;
     Firestore.provider := None; Firestore.createdAt := "2024-02-02T00:00:00.000Z";
     Firestore.approvedBy := None; Firestore.approvedAt := None |}.

Definition rejectedUser : Firestore.UserWithId :=
  {| Firestore.id := "uid-sam"; Firestore.profile := rejectedProfile |}.

Definition pendingProfile : Firestore.UserProfile :=
  {| Firestore.email := "kim@example.com"; Firestore.displayName := Some "Kim";
     Firestore.photoURL := None; Firestore.emailVerified := false;
     Firestore.status := Firestore.pending; Firestore.role := Firestore.user;
     Firestore.provider := None; Firestore.createdAt := "2024-03-03T00:00:00.000Z";
     Firestore.approvedBy := None; Firestore.approvedAt := None |}.

Definition pendingUser : Firestore.UserWithId :=
  {| Firestore.id := "uid-kim"; Firestore.profile := pendingProfile |}.

Definition sampleUsers : list Firestore.UserWithId :=
  [pendingUser; rejectedUser; adminUser].

Definition sampleDb : Firestore.Db :=
  {| Firestore.usersCol :=
       <["uid-kim" := pendingProfile]>
         (<["uid-sam" := rejectedProfile]>
            (<["uid-admin" := adminProfile]> (∅ : gmap string Firestore.UserProfile)));
     Firestore.notificationsCol := [] |}.

(** The manual-override console showing the user list. *)
Definition manualWorld : SiteManagement.World :=
  {| SiteManagement.ui :=
       {| SiteManagement.isClosing := false;
          SiteManagement.currentView := SiteManagement.Users;
          SiteManagement.isViewTransitioning := false;
          SiteManagement.transitionDirection := SiteManagement.forward;
          SiteManagement.users := sampleUsers;
          SiteManagement.isLoading := false;
          SiteManagement.fetchError := None;
          SiteManagement.actionLoading := None;
          SiteManagement.selectedUser := None;
          SiteManagement.showDeleteConfirm := false;
          SiteManagement.resendingEmail := false;
          SiteManagement.resendSuccess := false |};
     SiteManagement.db := sampleDb;
     SiteManagement.alerts := [];
     SiteManagement.timeouts := [] |}.

(** The stats console showing the user list, then the detail view of the
    administrator. *)
Definition statsState (view : SiteManagementStats.ManagementView)
    (selected : option Firestore.UserWithId) : SiteManagementStats.State :=
  {| SiteManagementStats.isClosing := false;
     SiteManagementStats.currentView := view;
     SiteManagementStats.isViewTransitioning := false;
     SiteManagementStats.transitionDirection := SiteManagementStats.forward;
     SiteManagementStats.users := sampleUsers;
     SiteManagementStats.isLoading := false;
     SiteManagementStats.fetchError := None;
     SiteManagementStats.actionLoading := None;
     SiteManagementStats.selectedUser := selected;
     SiteManagementStats.userStats := None;
     SiteManagementStats.isLoadingStats := false;
     SiteManagementStats.reminderSent := false;
     SiteManagementStats.isSendingReminder := false |}.

Definition statsWorld : SiteManagementStats.World :=
  {| SiteManagementStats.ui := statsState SiteManagementStats.Users None;
     SiteManagementStats.db := sampleDb;
     SiteManagementStats.alerts := [];
     SiteManagementStats.timeouts := [] |}.

(** Restaurants for the pin list: two branches with the same name on one
    map, and two maps that share a name. *)
Definition restaurant (i n m mn : string) : HeaderBar.RestaurantWithMap :=
  {| HeaderBar.id := i; HeaderBar.name := n; HeaderBar.address := "1 Main St";
     HeaderBar.visits := []; HeaderBar.mapId := m; HeaderBar.mapName := mn |}.

Definition branchA : HeaderBar.RestaurantWithMap :=
  restaurant "r1" "Blue Bottle" "map-home" "Home".
Definition branchB : HeaderBar.RestaurantWithMap :=
  restaurant "r2" "Blue Bottle" "map-home" "Home".
Definition annFavourite : HeaderBar.RestaurantWithMap :=
  restaurant "r3" "Noma" "map-ann" "Favourites".
Definition bobFavourite : HeaderBar.RestaurantWithMap :=
  restaurant "r4" "Alinea" "map-bob" "Favourites".

(** A list without such ties. *)
Definition pins : list HeaderBar.RestaurantWithMap :=
  [ restaurant "r5" "Zuni" "map-home" "Home";
    restaurant "r6" "Atelier" "map-trip" "Trip";
    restaurant "r7" "Arpege" "map-home" "Home" ].

End Samples.

(** ** The guided-tour overlay: steps, handlers and controls *)
Module TutorialTour.
Import Tutorial.

Inductive TutorialStep :=
| welcome | map_overview | search_bar | filter_button | side_menu
| map_pill | map_controls | add_button | shared_maps | complete.

Global Instance TutorialStep_eq_dec : EqDecision TutorialStep.
Proof. solve_decision. Defined.

Record StepConfig := {
  stepId : TutorialStep;
  targetSelector : option string;
  requiresClick : bool          (* [undefined] reads as [false] *)
}.

Definition selector (name : string) : string :=
  "[data-tutorial=" +:+ dquote +:+ name +:+ dquote +:+ "]".

Definition steps : list StepConfig :=
  [ {| stepId := welcome; targetSelector := None; requiresClick := false |};
    {| stepId := map_overview; targetSelector := None; requiresClick := false |};
    {| stepId := search_bar; targetSelector := Some (selector "search-bar");
       requiresClick := true |};
    {| stepId := filter_button; targetSelector := Some (selector "filter-button");
       requiresClick := true |};
    {| stepId := side_menu; targetSelector := Some (selector "menu-button");
       requiresClick := true |};
    {| stepId := map_pill; targetSelector := Some (selector "map-pill");
       requiresClick := true |};
    {| stepId := map_controls; targetSelector := Some (selector "map-controls");
       requiresClick := false |};
    {| stepId := add_button; targetSelector := Some (selector "add-button");
       requiresClick := false |};
    {| stepId := shared_maps; targetSelector := None; requiresClick := false |};
    {| stepId := complete; targetSelector := None; requiresClick := false |} ].

(** [l.findIndex(s => s.id === step)], counting from [i]; [-1] when there
    is none. *)
Fixpoint findIndexFrom (i : Z) (l : list StepConfig) (step : TutorialStep) : Z :=
  match l with
  | [] => -1
  | s :: l' => if bool_decide (stepId s = step) then i else findIndexFrom (i + 1) l' step
  end.

Definition currentStepIndex (currentStep : TutorialStep) : Z :=
  findIndexFrom 0 steps currentStep.

(** [steps[i]], [undefined] outside the array. *)
Definition stepAt (i : Z) : option StepConfig :=
  if i <? 0 then None else steps !! Z.to_nat i.

Definition currentConfig (currentStep : TutorialStep) : option StepConfig :=
  stepAt (currentStepIndex currentStep).

(** The [useState] cells of the overlay. *)
Record State := {
  currentStep : TutorialStep;
  isTransitioning : bool;
  highlightRect : option DOMRect;
  isVisible : bool
}.

(** The callbacks handed to [setTimeout], with what their closures hold. *)
Inductive Timeout :=
| SetStepTimeout (index : Z)       (* 200 ms: setCurrentStep(steps[index].id) … *)
| GoToNextStepTimeout (index : Z)  (* 400 ms: goToNextStep, for currentStepIndex = index *)
| CloseTimeout.                    (* 200 ms: onClose *)

(** The overlay with its surroundings: the timeouts still to fire, oldest
    first, the selectors a click was forwarded to, and how often [onClose]
    was called. *)
Record World := {
  ui : State;
  timeouts : list Timeout;
  forwarded : list string;
  closed : nat
}.

Definition on_ui (f : State → State) : Handler World unit :=
  hmodify (λ w, {| ui := f (ui w); timeouts := timeouts w;
                   forwarded := forwarded w; closed := closed w |}).

Definition setCurrentStep (s : TutorialStep) (st : State) : State :=
  {| currentStep := s; isTransitioning := isTransitioning st;
     highlightRect := highlightRect st; isVisible := isVisible st |}.

Definition setIsTransitioning (b : bool) (st : State) : State :=
  {| currentStep := currentStep st; isTransitioning := b;
     highlightRect := highlightRect st; isVisible := isVisible st |}.

Definition setHighlightRect (r : option DOMRect) (st : State) : State :=
  {| currentStep := currentStep st; isTransitioning := isTransitioning st;
     highlightRect := r; isVisible := isVisible st |}.

Definition setIsVisible (b : bool) (st : State) : State :=
  {| currentStep := currentStep st; isTransitioning := isTransitioning st;
     highlightRect := highlightRect st; isVisible := b |}.

Definition setTimeout (t : Timeout) : Handler World unit :=
  hmodify (λ w, {| ui := ui w; timeouts := timeouts w ++ [t];
                   forwarded := forwarded w; closed := closed w |}).

(** [goToNextStep] as created by a render in which
    [currentStepIndex = index]. *)
Definition goToNextStep (index : Z) : Handler World unit :=
  if index <? Z.of_nat (length steps) - 1 then
    on_ui (setIsTransitioning true) ;;
    setTimeout (SetStepTimeout (index + 1))
  else mret tt.

Definition handleSkip : Handler World unit :=
  on_ui (setIsVisible false) ;;
  setTimeout CloseTimeout.

Definition handleComplete : Handler World unit :=
  on_ui (setIsVisible false) ;;
  setTimeout CloseTimeout.

(** [handleHighlightClick]; [found] says whether [document.querySelector]
    finds the target. *)
Definition handleHighlightClick (found : bool) : Handler World unit :=
  w ← hget ;
  match currentConfig (currentStep (ui w)) with
  | Some config =>
      if requiresClick config then
        match targetSelector config with
        | Some sel =>
            if found
            then hmodify (λ w, {| ui := ui w; timeouts := timeouts w;
                                  forwarded := forwarded w ++ [sel];
                                  closed := closed w |})
            else mret tt
        | None => mret tt
        end ;;
        setTimeout (GoToNextStepTimeout (currentStepIndex (currentStep (ui w))))
      else mret tt
  | None => mret tt
  end.

(** The body of a timeout when it fires.  Reading [.id] of a step outside
    the array throws inside the callback and changes nothing. *)
Definition fire (t : Timeout) : Handler World unit :=
  match t with
  | SetStepTimeout index =>
      match stepAt index with
      | Some s =>
          on_ui (setCurrentStep (stepId s)) ;;
          on_ui (setIsTransitioning false)
      | None => mret tt
      end
  | GoToNextStepTimeout index => goToNextStep index
  | CloseTimeout =>
      hmodify (λ w, {| ui := ui w; timeouts := timeouts w;
                       forwarded := forwarded w; closed := S (closed w) |})
  end.

(** The oldest pending timeout fires. *)
Definition fireNext : Handler World unit :=
  w ← hget ;
  match timeouts w with
  | [] => mret tt
  | t :: rest =>
      hmodify (λ w, {| ui := ui w; timeouts := rest;
                       forwarded := forwarded w; closed := closed w |}) ;;
      fire t
  end.

(** [n] timeouts fire, oldest first. *)
Fixpoint settle (n : nat) (w : World) : World :=
  match n with
  | O => w
  | S n' => settle n' (run fireNext w)
  end.




(** [updateHighlight], given what [querySelector(…)?.getBoundingClientRect()]
    finds. *)
Definition updateHighlight (querySelector : string → option DOMRect)
    (st : State) : State :=
  match currentConfig (currentStep st) with
  | Some config =>
      match targetSelector config with
      | Some sel => setHighlightRect (querySelector sel) st
      | None => setHighlightRect None st
      end
  | None => setHighlightRect None st
  end.

(** The [onClick] handlers of the rendered overlay. *)
Inductive Action :=
| GoToNextStep            (* goToNextStep *)
| HandleComplete          (* handleComplete *)
| HandleSkip              (* handleSkip *)
| HandleHighlightClick.   (* handleHighlightClick *)

(** The button inside the card, by [renderStepContent]. *)
Definition contentButton (step : TutorialStep) : option Action :=
  match step with
  | welcome => Some GoToNextStep
  | map_overview => Some GoToNextStep
  | search_bar => None
  | filter_button => None
  | side_menu => None
  | map_pill => None
  | map_controls => Some GoToNextStep
  | add_button => Some GoToNextStep
  | shared_maps => Some GoToNextStep
  | complete => Some HandleComplete
  end.

(** [currentConfig?.requiresClick] *)
Definition clickRequired (step : TutorialStep) : bool :=
  match currentConfig step with
  | Some config => requiresClick config
  | None => false
  end.

(** The clickable elements of the rendered overlay, in document order: the
    cutout over the target, the skip button, the button of the card. *)
Definition render (isActive : bool) (st : State) : list Action :=
  if negb isActive then []
  else
    (match highlightRect st with
     | Some _ => if clickRequired (currentStep st) then [HandleHighlightClick] else []
     | None => []
     end)
    ++ (if bool_decide (currentStep st ≠ complete) then [HandleSkip] else [])
    ++ match contentButton (currentStep st) with
       | Some a => [a]
       | None => []
       end.

End TutorialTour.

(** ** components/SiteManagementModal.tsx: loading the user list, timers *)
Module SiteManagementLoad.
Import Firestore SiteManagement.

Definition setIsLoading (b : bool) (st : State) : State :=
  {| isClosing := isClosing st; currentView := currentView st;
     isViewTransitioning := isViewTransitioning st;
     transitionDirection := transitionDirection st; users := users st;
     isLoading := b; fetchError := fetchError st;
     actionLoading := actionLoading st; selectedUser := selectedUser st;
     showDeleteConfirm := showDeleteConfirm st;
     resendingEmail := resendingEmail st; resendSuccess := resendSuccess st |}.

Definition setFetchError (e : option string) (st : State) : State :=
  {| isClosing := isClosing st; currentView := currentView st;
     isViewTransitioning := isViewTransitioning st;
     transitionDirection := transitionDirection st; users := users st;
     isLoading := isLoading st; fetchError := e;
     actionLoading := actionLoading st; selectedUser := selectedUser st;
     showDeleteConfirm := showDeleteConfirm st;
     resendingEmail := resendingEmail st; resendSuccess := resendSuccess st |}.

(** [error.message] *)
Definition errorMessage (e : js_error) : string :=
  match e with JsError m => m end.

(** An awaited call that resolves or rejects without touching the state. *)
Definition await {A : Type} (r : result A) : Handler World A := λ w, (r, w).

(** [{ id: doc.id, ...doc.data() }] for each document of the snapshot. *)
Definition usersOf (snapshot : list (string * UserProfile)) : list UserWithId :=
  map (λ d, {| id := fst d; profile := snd d |}) snapshot.

(** [new Date(u.createdAt || 0).getTime()]; [parseDate] gives the time
    value of a date string, [None] where the string is not a date (NaN). *)
Definition getTime (parseDate : string → option Z) (u : UserWithId) : option Z :=
  if truthy_string (Some (createdAt (profile u)))
  then parseDate (createdAt (profile u))
  else Some 0.

(** [(a, b) => dateB - dateA]; [sort] reads a NaN as 0. *)
Definition newestFirst (parseDate : string → option Z) (a b : UserWithId) : Z :=
  match getTime parseDate a, getTime parseDate b with
  | Some dateA, Some dateB => dateB - dateA
  | _, _ => 0
  end.

(** [fetchUsers]; [snapshot] is what [getDocs(collection(db, 'users'))]
    resolves to, or the error it rejects with. *)
Definition fetchUsers (parseDate : string → option Z)
    (snapshot : result (list (string * UserProfile))) : Handler World unit :=
  on_ui (setIsLoading true) ;;
  on_ui (setFetchError None) ;;
  htry
    (snapshot ← await snapshot ;
     let usersList := usersOf snapshot in
     let usersList := Js.sort (newestFirst parseDate) usersList in
     on_ui (setUsers (λ _, usersList)))
    (λ error,
       on_ui (setFetchError
                (Some (or_string (Some (errorMessage error))
                                 "Failed to fetch users. Check Firestore rules."))))
    (on_ui (setIsLoading false)).

(** The oldest pending timeout fires. *)
Definition fireNext : Handler World unit :=
  w ← hget ;
  match timeouts w with
  | [] => mret tt
  | t :: rest =>
      hmodify (λ w, {| ui := ui w; db := db w; alerts := alerts w;
                       timeouts := rest |}) ;;
      fire t
  end.

End SiteManagementLoad.

(** ** components/SiteManagementModal_1.tsx: the detail view *)
Module SiteManagementStatsDetail.
Import Firestore SiteManagementStats.





Definition await {A : Type} (r : result A) : Handler World A := λ w, (r, w).







(** [handleDeleteUser(id, email)] up to its [await]: the confirmation
    dialog and the busy mark. *)
Definition deleteRequested (confirmed : bool) (userId : string)
  : Handler World unit :=
  if negb confirmed then mret tt
  else on_ui (setActionLoading (Some userId)).

(** [handleDeleteUser(id, email)] from its [await] on. *)
Definition deleteSettled (confirmed acceptDelete : bool) (userId : string)
  : Handler World unit :=
  if negb confirmed then mret tt
  else
    htry
      (store (deleteDoc acceptDelete userId) ;;
       on_ui (setUsers (List.filter (λ u, negb (String.eqb (id u) userId)))))
      (λ error, alert (T "saveFailed"))
      (on_ui (setActionLoading None)).


(** The oldest pending timeout fires. *)
Definition fireNext : Handler World unit :=
  w ← hget ;
  match timeouts w with
  | [] => mret tt
  | t :: rest =>
      hmodify (λ w, {| ui := ui w; db := db w; alerts := alerts w;
                       timeouts := rest |}) ;;
      fire t
  end.

(** The user a control acts on. *)
Definition target (a : Action) : option string :=
  match a with
  | ApproveUser userId => Some userId
  | RejectUser userId => Some userId
  | ViewUserDetail u => Some (id u)
  | DeleteUser userId _ => Some userId
  | SendVerificationReminder userId _ => Some userId
  | DeleteUserThenGoBack userId _ => Some userId
  | GoBack | Close | NavigateTo _ | FetchUsers => None
  end.

End SiteManagementStatsDetail.

(** ** components/InfoModal.tsx: closing *)
Module InfoModal.

(** The [isClosing] cell, the pending [setTimeout(onClose, 200)] callbacks
    and the calls of [onClose] made so far. *)
Record World := {
  isClosing : bool;
  timeouts : nat;
  closed : nat
}.

Definition initial : World := {| isClosing := false; timeouts := O; closed := O |}.

Definition handleClose (w : World) : World :=
  if isClosing w then w
  else {| isClosing := true; timeouts := S (timeouts w); closed := closed w |}.

(** A pending timeout fires: [onClose()]. *)
Definition fire (w : World) : World :=
  match timeouts w with
  | O => w
  | S n => {| isClosing := isClosing w; timeouts := n; closed := S (closed w) |}
  end.

(** A click on the backdrop or on the close button, or a timeout firing. *)
Inductive Event := Click | Fire.

Definition step (w : World) (ev : Event) : World :=
  match ev with
  | Click => handleClose w
  | Fire => fire w
  end.

Definition after (evs : list Event) : World := fold_left step evs initial.

End InfoModal.

(** ** NotificationPanel, imported by HeaderBar.tsx: formatTimeAgo

    The component's text follows the modal in
    components/SiteManagementModal.tsx. *)
Module NotificationPanel.

(** [formatTimeAgo(dateStr)]; [diffMs] is [now.getTime() - date.getTime()],
    [None] when [dateStr] is not a date (NaN), and [localeDate] is what
    [date.toLocaleDateString('en-US', …)] returns. *)
Definition formatTimeAgo (diffMs : option Z) (localeDate : string) : string :=
  match diffMs with
  | None => localeDate          (* every comparison with NaN is false *)
  | Some diffMs =>
      let diffMins := diffMs / 60000 in
      let diffHours := diffMs / 3600000 in
      let diffDays := diffMs / 86400000 in
      if diffMins <? 1 then "Just now"
      else if diffMins <? 60 then pretty diffMins +:+ "m ago"
      else if diffHours <? 24 then pretty diffHours +:+ "h ago"
      else if diffDays <? 7 then pretty diffDays +:+ "d ago"
      else localeDate
  end.

End NotificationPanel.

(** ** components/HeaderBar.tsx: the notification panel *)
Module HeaderBarNotifications.

(** The two [useState] cells and the pending 300 ms timeouts, which all
    run the same callback. *)
Record World := {
  isNotifOpen : bool;
  isNotifClosing : bool;
  timeouts : nat
}.

Definition initial : World :=
  {| isNotifOpen := false; isNotifClosing := false; timeouts := O |}.

Definition handleNotifToggle (w : World) : World :=
  if isNotifOpen w then
    {| isNotifOpen := isNotifOpen w; isNotifClosing := true;
       timeouts := S (timeouts w) |}
  else
    {| isNotifOpen := true; isNotifClosing := isNotifClosing w;
       timeouts := timeouts w |}.

Definition closeNotifications (w : World) : World :=
  {| isNotifOpen := isNotifOpen w; isNotifClosing := true;
     timeouts := S (timeouts w) |}.

(** A pending timeout fires: [setIsNotifOpen(false); setIsNotifClosing(false)]. *)
Definition fire (w : World) : World :=
  match timeouts w with
  | O => w
  | S n => {| isNotifOpen := false; isNotifClosing := false; timeouts := n |}
  end.

(** [NotificationPanel] returns [null] when [!isOpen && !isClosing]. *)
Definition panelRendered (w : World) : bool := isNotifOpen w || isNotifClosing w.

Inductive Event := Toggle | CloseNotifications | Fire.

Definition step (w : World) (ev : Event) : World :=
  match ev with
  | Toggle => handleNotifToggle w
  | CloseNotifications => closeNotifications w
  | Fire => fire w
  end.

Definition after (evs : list Event) : World := fold_left step evs initial.

End HeaderBarNotifications.

(** ** More concrete inputs *)
Module Cases.

(** A blob reference whose content reads as a PNG data URL, and an endpoint
    that answers with the image data it was sent. *)
Definition env_blob : GeminiService.Env :=
  {| GeminiService.newGoogleGenAI := Ok tt;
     GeminiService.readBlobAsDataURL := λ _, Ok "data:image/png;base64,iVBORw0KGgo=";
     GeminiService.generateContent :=
       λ rq, Ok {| GeminiService.text := GeminiService.req_data rq |} |}.

(** The overlay on a step, with no timeout pending. *)
Definition tourAt (step : TutorialTour.TutorialStep)
    (rect : option Tutorial.DOMRect) : TutorialTour.World :=
  {| TutorialTour.ui :=
       {| TutorialTour.currentStep := step; TutorialTour.isTransitioning := false;
          TutorialTour.highlightRect := rect; TutorialTour.isVisible := true |};
     TutorialTour.timeouts := []; TutorialTour.forwarded := [];
     TutorialTour.closed := O |}.

(** The manual-override console on the detail view of an approved user,
    with the delete confirmation open. *)
Definition manualDetail (u : Firestore.UserWithId) : SiteManagement.World :=
  {| SiteManagement.ui :=
       SiteManagement.setShowDeleteConfirm true
         (SiteManagement.setSelectedUser (λ _, Some u)
            (SiteManagement.setCurrentView SiteManagement.ApprovedUserDetail
               (SiteManagement.ui Samples.manualWorld)));
     SiteManagement.db := Samples.sampleDb;
     SiteManagement.alerts := [];
     SiteManagement.timeouts := [] |}.

(** The same console on the detail view of a pending user. *)
Definition manualPending (u : Firestore.UserWithId) : SiteManagement.World :=
  {| SiteManagement.ui :=
       SiteManagement.setSelectedUser (λ _, Some u)
         (SiteManagement.setCurrentView SiteManagement.PendingUserDetail
            (SiteManagement.ui Samples.manualWorld));
     SiteManagement.db := Samples.sampleDb;
     SiteManagement.alerts := [];
     SiteManagement.timeouts := [] |}.


End Cases.

(** * Theorems *)

(** ** geminiService *)
Section GeminiServiceFacts.
Import GeminiService.

Lemma or_string_truthy (a : option string) (b s : string) :
  a = Some s → s ≠ EmptyString → or_string a b = s.
Proof.
  intros -> Hs. destruct s as [|c s]; [congruence | reflexivity].
Qed.

Lemma or_string_falsy (a : option string) (b : string) :
  truthy_string a = false → or_string a b = b.
Proof.
  destruct a as [[|c s]|]; simpl; intros H; try reflexivity. discriminate.
Qed.

Lemma generateFoodDescription_resolves env img comment rname :
  ∃ s, generateFoodDescription env img comment rname = Ok s.
Proof.
  unfold generateFoodDescription, try_catch, rbind.
  destruct (model_call env img comment rname); eauto.
Qed.

(** C4, as amended: the returned promise always resolves; it resolves with
    the model's text when the call succeeds with a non-empty text, with
    "Delicious!" when the call succeeds with an empty or missing text, and
    with "Could not generate description." when anything in the [try] block
    throws. *)
Theorem C4_generateFoodDescription_outcomes env img comment rname :
  (∃ s, generateFoodDescription env img comment rname = Ok s) ∧
  (∀ e, model_call env img comment rname = Throw e →
        generateFoodDescription env img comment rname
        = Ok "Could not generate description.") ∧
  (∀ response t, model_call env img comment rname = Ok response →
        text response = Some t → t ≠ EmptyString →
        generateFoodDescription env img comment rname = Ok t) ∧
  (∀ response, model_call env img comment rname = Ok response →
        truthy_string (text response) = false →
        generateFoodDescription env img comment rname = Ok "Delicious!").
Proof.
  split; [apply generateFoodDescription_resolves|].
  unfold generateFoodDescription, try_catch, rbind.
  repeat split.
  - intros e ->. reflexivity.
  - intros response t -> Ht Hne. f_equal. by apply or_string_truthy.
  - intros response -> Hf. f_equal. by apply or_string_falsy.
Qed.

Lemma C4_generateFoodDescription_outcomes_witness :
  generateFoodDescription Samples.env_offline Samples.image "so good" "Luigi's"
  = Ok "Could not generate description."
  ∧ generateFoodDescription Samples.env_caption Samples.image "so good" "Luigi's"
    = Ok "Golden, crispy perfection!"
  ∧ generateFoodDescription Samples.env_empty_text Samples.image "so good" "Luigi's"
    = Ok "Delicious!".
Proof.
  split; [|split].
  - apply (proj1 (proj2 (C4_generateFoodDescription_outcomes
             Samples.env_offline Samples.image "so good" "Luigi's"))
             (JsError "503")).
    reflexivity.
  - apply (proj1 (proj2 (proj2 (C4_generateFoodDescription_outcomes
             Samples.env_caption Samples.image "so good" "Luigi's")))
             {| text := Some "Golden, crispy perfection!" |}).
    + reflexivity.
    + reflexivity.
    + discriminate.
  - apply (proj2 (proj2 (proj2 (C4_generateFoodDescription_outcomes
             Samples.env_empty_text Samples.image "so good" "Luigi's")))
             {| text := Some EmptyString |}).
    + reflexivity.
    + reflexivity.
Defined.

(** The claim as first stated fails: the call succeeds, the model's text is
    the empty string, and the function returns "Delicious!" instead. *)
Lemma C4_counterexample_empty_text :
  model_call Samples.env_empty_text Samples.image "so good" "Luigi's"
  = Ok {| text := Some EmptyString |}
  ∧ generateFoodDescription Samples.env_empty_text Samples.image "so good" "Luigi's"
    = Ok "Delicious!"
  ∧ generateFoodDescription Samples.env_empty_text Samples.image "so good" "Luigi's"
    ≠ Ok EmptyString.
Proof. repeat split. discriminate. Qed.

(** C9: when the model request completes without throwing and its text is
    empty or missing, the function returns "Delicious!", which is neither
    the model's text nor the failure fallback. *)
Theorem C9_empty_text_gives_delicious env img comment rname response :
  model_call env img comment rname = Ok response →
  text response = None ∨ text response = Some EmptyString →
  generateFoodDescription env img comment rname = Ok "Delicious!"
  ∧ Some "Delicious!" ≠ text response
  ∧ "Delicious!" ≠ fallback.
Proof.
  intros Hcall Htext. split; [|split].
  - unfold generateFoodDescription, try_catch, rbind. rewrite Hcall.
    f_equal. apply or_string_falsy. by destruct Htext as [-> | ->].
  - by destruct Htext as [-> | ->].
  - discriminate.
Qed.

Lemma C9_empty_text_gives_delicious_witness :
  generateFoodDescription Samples.env_empty_text Samples.image "so good" "Luigi's"
  = Ok "Delicious!".
Proof.
  apply (C9_empty_text_gives_delicious Samples.env_empty_text Samples.image
           "so good" "Luigi's" {| text := Some EmptyString |}).
  - reflexivity.
  - right. reflexivity.
Defined.

End GeminiServiceFacts.

(** ** PendingScreen: the resend cooldown *)
Section PendingScreenFacts.
Import PendingScreen.

Lemma initial_armed : armed initial.
Proof. reflexivity. Qed.

Lemma setResendCooldown_armed v st : armed st → armed (setResendCooldown v st).
Proof.
  unfold setResendCooldown. intros H. destruct (v =? resendCooldown st); [exact H|].
  reflexivity.
Qed.

Lemma handleResendVerification_armed r st :
  armed st → armed (handleResendVerification r st).
Proof.
  intros H. destruct r as [[]|e]; simpl; [|exact H].
  by apply setResendCooldown_armed.
Qed.

(** One second of an armed, running cooldown takes exactly one off. *)
Lemma tick_running st :
  armed st → 0 < resendCooldown st →
  resendCooldown (tick st) = resendCooldown st - 1 ∧ armed (tick st).
Proof.
  unfold armed, tick, effect. intros -> Hpos.
  destruct (0 <? resendCooldown st) eqn:E; [|apply Z.ltb_ge in E; lia].
  unfold setResendCooldown. simpl.
  destruct (resendCooldown st - 1 =? resendCooldown st) eqn:E'.
  - apply Z.eqb_eq in E'. lia.
  - simpl. split; reflexivity.
Qed.

(** At zero no timeout is armed and nothing changes any more. *)
Lemma tick_stopped st : armed st → resendCooldown st <= 0 → tick st = st.
Proof.
  unfold armed, tick, effect. intros H Hle. rewrite H.
  destruct (0 <? resendCooldown st) eqn:E; [apply Z.ltb_lt in E; lia|].
  reflexivity.
Qed.


Lemma handleResendVerification_sent st :
  resendCooldown (handleResendVerification (Ok tt) st) = 60.
Proof.
  unfold handleResendVerification, try_catch, rbind, setResendCooldown.
  destruct (60 =? resendCooldown st) eqn:E; [|reflexivity].
  apply Z.eqb_eq in E. congruence.
Qed.

(** A failed resend leaves the cooldown alone. *)
Lemma handleResendVerification_failed e st :
  handleResendVerification (Throw e) st = st.
Proof. reflexivity. Qed.




End PendingScreenFacts.

(** ** Tutorial: the position of the instruction card *)
Section TutorialFacts.
Import Tutorial.
Local Open Scope Q_scope.










End TutorialFacts.

(** ** The admin consoles *)
Section AdminConsoleFacts.
Import Firestore.

Ltac handler_unfold :=
  unfold run, htry, mbind, handler_bind, mret, handler_ret, hbind, hret,
    hmodify, hget.

(** *** The two buckets of the user list *)

Lemma manual_pending_iff us u :
  In u (SiteManagement.pendingUsers us)
  ↔ In u us ∧ (emailVerified (profile u) = false ∨ status (profile u) ≠ approved).
Proof.
  unfold SiteManagement.pendingUsers. rewrite List.filter_In.
  destruct (emailVerified (profile u)); simpl;
    destruct (decide (status (profile u) = approved)) as [E | E];
    rewrite ?(bool_decide_eq_true_2 _ E), ?(bool_decide_eq_false_2 _ E); simpl;
    intuition congruence.
Qed.

Lemma manual_approved_iff us u :
  In u (SiteManagement.approvedUsers us)
  ↔ In u us ∧ status (profile u) = approved ∧ emailVerified (profile u) = true.
Proof.
  unfold SiteManagement.approvedUsers. rewrite List.filter_In.
  destruct (emailVerified (profile u)); simpl;
    destruct (decide (status (profile u) = approved)) as [E | E];
    rewrite ?(bool_decide_eq_true_2 _ E), ?(bool_decide_eq_false_2 _ E); simpl;
    intuition congruence.
Qed.

Lemma stats_pending_iff us u :
  In u (SiteManagementStats.pendingUsers us)
  ↔ In u us ∧ status (profile u) = pending.
Proof.
  unfold SiteManagementStats.pendingUsers. rewrite List.filter_In.
  by rewrite bool_decide_eq_true.
Qed.

Lemma stats_approved_iff us u :
  In u (SiteManagementStats.approvedUsers us)
  ↔ In u us ∧ status (profile u) = approved.
Proof.
  unfold SiteManagementStats.approvedUsers. rewrite List.filter_In.
  by rewrite bool_decide_eq_true.
Qed.

(** C2, as amended: in the manual-override console a user is pending iff
    not email-verified or not approved, and approved iff approved and
    email-verified, so every user is in exactly one bucket and a rejected
    user is pending.  In the stats console a user is approved iff the status
    is approved and pending iff the status is pending, whatever the email
    verification: no user is in both buckets and a rejected user is in
    neither. *)
Theorem C2_user_buckets us u :
  ((In u (SiteManagement.pendingUsers us)
    ↔ In u us ∧ (emailVerified (profile u) = false ∨ status (profile u) ≠ approved))
   ∧ (In u (SiteManagement.approvedUsers us)
      ↔ In u us ∧ status (profile u) = approved ∧ emailVerified (profile u) = true)
   ∧ (In u us →
        (In u (SiteManagement.pendingUsers us) ∧ ¬ In u (SiteManagement.approvedUsers us))
        ∨ (¬ In u (SiteManagement.pendingUsers us) ∧ In u (SiteManagement.approvedUsers us)))
   ∧ (In u us → status (profile u) = rejected → In u (SiteManagement.pendingUsers us)))
  ∧ ((In u (SiteManagementStats.pendingUsers us)
      ↔ In u us ∧ status (profile u) = pending)
     ∧ (In u (SiteManagementStats.approvedUsers us)
        ↔ In u us ∧ status (profile u) = approved)
     ∧ ¬ (In u (SiteManagementStats.pendingUsers us)
          ∧ In u (SiteManagementStats.approvedUsers us))
     ∧ (status (profile u) = rejected →
          ¬ In u (SiteManagementStats.pendingUsers us)
          ∧ ¬ In u (SiteManagementStats.approvedUsers us))).
Proof.
  split.
  - split; [apply manual_pending_iff|]. split; [apply manual_approved_iff|].
    rewrite manual_pending_iff, manual_approved_iff. split.
    + intros Hin. destruct (emailVerified (profile u));
        destruct (decide (status (profile u) = approved)); intuition congruence.
    + intros Hin Hrej. split; [exact Hin|]. right. congruence.
  - split; [apply stats_pending_iff|]. split; [apply stats_approved_iff|].
    rewrite stats_pending_iff, stats_approved_iff. split.
    + intros [[_ H1] [_ H2]]. congruence.
    + intros Hrej. split; intros [_ H]; congruence.
Qed.

Lemma C2_user_buckets_witness :
  In Samples.rejectedUser (SiteManagement.pendingUsers Samples.sampleUsers)
  ∧ ¬ In Samples.rejectedUser (SiteManagementStats.pendingUsers Samples.sampleUsers)
  ∧ ¬ In Samples.rejectedUser (SiteManagementStats.approvedUsers Samples.sampleUsers).
Proof.
  pose proof (C2_user_buckets Samples.sampleUsers Samples.rejectedUser)
    as [(_ & _ & _ & Hmanual) (_ & _ & _ & Hstats)].
  split.
  - apply Hmanual; [right; left; reflexivity | reflexivity].
  - apply Hstats. reflexivity.
Defined.

(** The claim as first stated fails in the stats console: a fetched user
    whose status is rejected is in neither bucket. *)
Lemma C2_counterexample_stats_console :
  In Samples.rejectedUser Samples.sampleUsers
  ∧ status (profile Samples.rejectedUser) = rejected
  ∧ SiteManagementStats.pendingUsers Samples.sampleUsers = [Samples.pendingUser]
  ∧ SiteManagementStats.approvedUsers Samples.sampleUsers = [Samples.adminUser]
  ∧ ¬ In Samples.rejectedUser (SiteManagementStats.pendingUsers Samples.sampleUsers)
  ∧ ¬ In Samples.rejectedUser (SiteManagementStats.approvedUsers Samples.sampleUsers).
Proof.
  split; [right; left; reflexivity|].
  split; [reflexivity|].
  split; [reflexivity|].
  split; [reflexivity|].
  split; intros [H | []]; discriminate H.
Qed.

(** *** Approving a user *)



(** When the store refuses the update, or there is no such document,
    nothing is written and an alert is shown. *)
Lemma manual_approve_update_refused language now acceptUpdate acceptAdd userId
    (w : SiteManagement.World) :
  acceptUpdate = false ∨ usersCol (SiteManagement.db w) !! userId = None →
  let w' := run (SiteManagement.handleApproveUser language now acceptUpdate acceptAdd userId) w in
  SiteManagement.db w' = SiteManagement.db w
  ∧ SiteManagement.users (SiteManagement.ui w') = SiteManagement.users (SiteManagement.ui w)
  ∧ SiteManagement.alerts w' = SiteManagement.alerts w ++ [Lit "Failed to approve user"].
Proof.
  intros H. unfold SiteManagement.handleApproveUser. handler_unfold.
  unfold SiteManagement.on_ui, SiteManagement.store, SiteManagement.alert, updateDoc.
  handler_unfold. cbn.
  destruct H as [-> | H]; [|rewrite H; destruct acceptUpdate]; cbn;
    repeat split; reflexivity.
Qed.

(** When the update goes through and the notification is refused, the
    document is approved but no notification exists and the displayed list
    is not refreshed. *)
Lemma manual_approve_notification_refused language now userId
    (w : SiteManagement.World) p :
  usersCol (SiteManagement.db w) !! userId = Some p →
  let w' := run (SiteManagement.handleApproveUser language now true false userId) w in
  usersCol (SiteManagement.db w') !! userId = Some (with_approval approved "admin" now p)
  ∧ notificationsCol (SiteManagement.db w') = notificationsCol (SiteManagement.db w)
  ∧ SiteManagement.users (SiteManagement.ui w') = SiteManagement.users (SiteManagement.ui w)
  ∧ SiteManagement.alerts w' = SiteManagement.alerts w ++ [Lit "Failed to approve user"].
Proof.
  intros Hp. unfold SiteManagement.handleApproveUser. handler_unfold.
  unfold SiteManagement.on_ui, SiteManagement.store, SiteManagement.alert, updateDoc, addDoc.
  handler_unfold. cbn. rewrite Hp. cbn.
  split; [apply lookup_insert_eq|]. repeat split; reflexivity.
Qed.





(** *** Rejecting a user *)

Lemma manual_reject_cancelled acceptUpdate userId (w : SiteManagement.World) :
  run (SiteManagement.handleRejectUser false acceptUpdate userId) w = w.
Proof. reflexivity. Qed.

Lemma stats_reject_cancelled acceptUpdate userId (w : SiteManagementStats.World) :
  run (SiteManagementStats.handleRejectUser false acceptUpdate userId) w = w.
Proof. reflexivity. Qed.





(** *** What an approval leaves alone *)

Lemma Forall2_map_self {A : Type} (R : A → A → Prop) (f : A → A) (l : list A) :
  (∀ a, R a (f a)) → Forall2 R l (map f l).
Proof. intros H. induction l; constructor; auto. Qed.

Lemma manual_approve_users language now acceptUpdate acceptAdd userId
    (w : SiteManagement.World) :
  let us' := SiteManagement.users (SiteManagement.ui
               (run (SiteManagement.handleApproveUser language now
                       acceptUpdate acceptAdd userId) w)) in
  us' = SiteManagement.users (SiteManagement.ui w)
  ∨ us' = map (SiteManagement.approvedEntry now userId)
              (SiteManagement.users (SiteManagement.ui w)).
Proof.
  unfold SiteManagement.handleApproveUser. handler_unfold.
  unfold SiteManagement.on_ui, SiteManagement.store, SiteManagement.alert,
    updateDoc, addDoc.
  handler_unfold. cbn.
  destruct acceptUpdate; cbn; [|by left].
  destruct (usersCol (SiteManagement.db w) !! userId); cbn; [|by left].
  destruct acceptAdd; cbn; [|by left].
  destruct (SiteManagement.selected_is userId _); cbn; by right.
Qed.

Lemma stats_approve_users acceptUpdate acceptAdd userId
    (w : SiteManagementStats.World) :
  let us' := SiteManagementStats.users (SiteManagementStats.ui
               (run (SiteManagementStats.handleApproveUser
                       acceptUpdate acceptAdd userId) w)) in
  us' = SiteManagementStats.users (SiteManagementStats.ui w)
  ∨ us' = map (SiteManagementStats.approvedEntry userId)
              (SiteManagementStats.users (SiteManagementStats.ui w)).
Proof.
  unfold SiteManagementStats.handleApproveUser. handler_unfold.
  unfold SiteManagementStats.on_ui, SiteManagementStats.store,
    SiteManagementStats.alert, updateDoc, addDoc.
  handler_unfold. cbn.
  destruct acceptUpdate; cbn; [|by left].
  destruct (usersCol (SiteManagementStats.db w) !! userId); cbn; [|by left].
  destruct acceptAdd; cbn; [|by left].
  by right.
Qed.

(** C10: whatever the store answers, approving user X leaves the displayed
    list with the same length and order; an entry whose id is not X is
    untouched, and an entry whose id is X keeps its id and every field other
    than status, approvedBy and approvedAt (the stats console keeps
    approvedBy and approvedAt too). *)
Theorem C10_approve_frame language now acceptUpdate acceptAdd X
    (wA : SiteManagement.World) (wB : SiteManagementStats.World) :
  let usA := SiteManagement.users (SiteManagement.ui wA) in
  let usA' := SiteManagement.users (SiteManagement.ui
                (run (SiteManagement.handleApproveUser language now
                        acceptUpdate acceptAdd X) wA)) in
  let usB := SiteManagementStats.users (SiteManagementStats.ui wB) in
  let usB' := SiteManagementStats.users (SiteManagementStats.ui
                (run (SiteManagementStats.handleApproveUser
                        acceptUpdate acceptAdd X) wB)) in
  (length usA' = length usA
   ∧ Forall2 (λ u u', id u' = id u
                      ∧ same_outside_approval (profile u) (profile u')
                      ∧ (id u ≠ X → u' = u)) usA usA')
  ∧ (length usB' = length usB
     ∧ Forall2 (λ u u', id u' = id u
                        ∧ same_outside_approval (profile u) (profile u')
                        ∧ approvedBy (profile u') = approvedBy (profile u)
                        ∧ approvedAt (profile u') = approvedAt (profile u)
                        ∧ (id u ≠ X → u' = u)) usB usB').
Proof.
  intros usA usA' usB usB'.
  assert (HA : Forall2 (λ u u', id u' = id u
                      ∧ same_outside_approval (profile u) (profile u')
                      ∧ (id u ≠ X → u' = u)) usA usA').
  { destruct (manual_approve_users language now acceptUpdate acceptAdd X wA)
      as [H | H]; fold usA' usA in H; rewrite H.
    - apply Forall_Forall2_diag, Forall_forall. intros u _.
      unfold same_outside_approval. tauto.
    - apply Forall2_map_self. intros u. unfold SiteManagement.approvedEntry.
      destruct (String.eqb_spec (id u) X); cbn;
        unfold same_outside_approval; cbn; tauto. }
  assert (HB : Forall2 (λ u u', id u' = id u
                        ∧ same_outside_approval (profile u) (profile u')
                        ∧ approvedBy (profile u') = approvedBy (profile u)
                        ∧ approvedAt (profile u') = approvedAt (profile u)
                        ∧ (id u ≠ X → u' = u)) usB usB').
  { destruct (stats_approve_users acceptUpdate acceptAdd X wB)
      as [H | H]; fold usB' usB in H; rewrite H.
    - apply Forall_Forall2_diag, Forall_forall. intros u _.
      unfold same_outside_approval. tauto.
    - apply Forall2_map_self. intros u. unfold SiteManagementStats.approvedEntry.
      destruct (String.eqb_spec (id u) X); cbn;
        unfold same_outside_approval; cbn; tauto. }
  split; (split; [symmetry; eapply Forall2_length; eassumption | assumption]).
Qed.

(** *** Deleting a user *)

(** In the manual-override console a delete button exists only in the
    approved-user detail view, only for the selected user, and only when
    that user is not an administrator. *)
Lemma manual_console_delete_gate (st : SiteManagement.State) c userId :
  In c (SiteManagement.render st) →
  SiteManagement.onClick c = SiteManagement.DeleteUser userId →
  SiteManagement.currentView st = SiteManagement.ApprovedUserDetail
  ∧ ∃ su, SiteManagement.selectedUser st = Some su
          ∧ id su = userId ∧ role (profile su) ≠ admin.
Proof.
  unfold SiteManagement.render. intros Hin Hclick.
  apply List.in_app_iff in Hin as [Hin | Hin].
  { destruct (SiteManagement.currentView st); cbn in Hin;
      intuition (subst; discriminate). }
  apply List.in_app_iff in Hin as [Hin | Hin].
  { cbn in Hin. intuition (subst; discriminate). }
  destruct (SiteManagement.currentView st) eqn:Hview.
  - cbn in Hin. intuition (subst; discriminate).
  - destruct (SiteManagement.isLoading st); [destruct Hin|].
    destruct (truthy_string (SiteManagement.fetchError st)).
    { cbn in Hin. intuition (subst; discriminate). }
    apply List.in_app_iff in Hin as [Hin | Hin];
      apply List.in_map_iff in Hin as (u & <- & _); discriminate.
  - destruct (SiteManagement.selectedUser st) as [su|]; [|destruct Hin].
    apply List.in_app_iff in Hin as [Hin | Hin].
    + destruct (negb (emailVerified (profile su))); cbn in Hin;
        intuition (subst; discriminate).
    + destruct (negb (bool_decide (status (profile su) = approved))); cbn in Hin;
        intuition (subst; discriminate).
  - split; [reflexivity|].
    destruct (SiteManagement.selectedUser st) as [su|]; [|destruct Hin].
    exists su. split; [reflexivity|].
    destruct (decide (role (profile su) = admin)) as [E | E].
    + rewrite (bool_decide_eq_true_2 _ E) in Hin. destruct Hin.
    + split; [|exact E]. rewrite (bool_decide_eq_false_2 _ E) in Hin. cbn in Hin.
      destruct (negb (SiteManagement.showDeleteConfirm st)); cbn in Hin.
      * intuition (subst; discriminate).
      * destruct Hin as [<- | [<- | []]]; cbn in Hclick; congruence.
Qed.

(** So no delete can be triggered for an administrator shown there. *)
Lemma manual_console_blocks_admin_delete (st : SiteManagement.State) su c :
  SiteManagement.selectedUser st = Some su →
  role (profile su) = admin →
  In c (SiteManagement.render st) →
  ∀ userId, SiteManagement.onClick c ≠ SiteManagement.DeleteUser userId.
Proof.
  intros Hsel Hadmin Hin userId Hclick.
  destruct (manual_console_delete_gate st c userId Hin Hclick)
    as (_ & su' & Hsel' & _ & Hrole).
  congruence.
Qed.

(** C1 fails in the stats console: with an administrator among the approved
    users, the user list renders an enabled delete button for that
    administrator, the detail view renders one too, and a confirmed delete
    removes the administrator's document from the store. *)
Theorem C1_stats_console_deletes_admin :
  role (profile Samples.adminUser) = admin
  ∧ In (SiteManagementStats.button
          (SiteManagementStats.DeleteUser "uid-admin" "root@tracebook.app"))
       (SiteManagementStats.render (SiteManagementStats.ui Samples.statsWorld))
  ∧ In (SiteManagementStats.button
          (SiteManagementStats.DeleteUserThenGoBack "uid-admin" "root@tracebook.app"))
       (SiteManagementStats.render
          (Samples.statsState SiteManagementStats.UserDetail (Some Samples.adminUser)))
  ∧ usersCol (SiteManagementStats.db Samples.statsWorld) !! "uid-admin"
    = Some Samples.adminProfile
  ∧ usersCol (SiteManagementStats.db
                (run (SiteManagementStats.handleDeleteUser true true
                        "uid-admin" "root@tracebook.app") Samples.statsWorld))
    !! "uid-admin" = None
  ∧ SiteManagementStats.users (SiteManagementStats.ui
        (run (SiteManagementStats.handleDeleteUser true true
                "uid-admin" "root@tracebook.app") Samples.statsWorld))
    = [Samples.pendingUser; Samples.rejectedUser].
Proof.
  split; [reflexivity|].
  split; [cbn; repeat (first [left; reflexivity | right])|].
  split; [cbn; repeat (first [left; reflexivity | right])|].
  split; [reflexivity|].
  split; [vm_compute; reflexivity | reflexivity].
Qed.

End AdminConsoleFacts.

(** ** Array.prototype.sort *)
Section SortFacts.
Context {A : Type} (compare : A → A → Z).

Local Abbreviation le := (λ x y : A, compare x y <= 0).

Lemma insert_Permutation x l : Permutation (Js.insert compare x l) (x :: l).
Proof.
  induction l as [|y l IH]; cbn; [reflexivity|].
  destruct (compare x y <=? 0); [reflexivity|].
  rewrite IH. apply perm_swap.
Qed.

Lemma sort_Permutation l : Permutation (Js.sort compare l) l.
Proof.
  induction l as [|x l IH]; cbn; [reflexivity|].
  rewrite insert_Permutation. by constructor.
Qed.

Lemma sort_In x l : In x (Js.sort compare l) ↔ In x l.
Proof.
  split; apply Permutation_in; [|symmetry]; apply sort_Permutation.
Qed.

Hypothesis compare_total : ∀ x y, compare x y <= 0 ∨ compare y x <= 0.
Hypothesis compare_trans :
  ∀ x y z, compare x y <= 0 → compare y z <= 0 → compare x z <= 0.

Lemma insert_StronglySorted x l :
  StronglySorted le l → StronglySorted le (Js.insert compare x l).
Proof.
  induction l as [|y l IH]; intros Hs; cbn.
  - repeat constructor.
  - apply StronglySorted_inv in Hs as [Hs Hy].
    destruct (compare x y <=? 0) eqn:E.
    + apply Z.leb_le in E. constructor; [by constructor|].
      constructor; [exact E|].
      eapply List.Forall_impl; [|exact Hy]. intros z Hz. cbn in *. eauto.
    + apply Z.leb_gt in E. constructor; [auto|].
      eapply Permutation_Forall; [symmetry; apply insert_Permutation|].
      constructor; [|exact Hy].
      destruct (compare_total x y); [lia | assumption].
Qed.

Lemma sort_StronglySorted l : StronglySorted le (Js.sort compare l).
Proof.
  induction l as [|x l IH]; cbn; [constructor | by apply insert_StronglySorted].
Qed.

(** Two sorted arrangements of the same elements coincide when the
    comparator ties only equal elements. *)
Lemma StronglySorted_unique l1 : ∀ l2,
  Permutation l1 l2 →
  StronglySorted le l1 → StronglySorted le l2 →
  (∀ x y, In x l1 → In y l1 → compare x y <= 0 → compare y x <= 0 → x = y) →
  l1 = l2.
Proof.
  induction l1 as [|a l1 IH]; intros l2 Hp Hs1 Hs2 Hanti.
  - apply Permutation_nil in Hp. by subst.
  - destruct l2 as [|b l2].
    { symmetry in Hp. apply Permutation_nil in Hp. discriminate. }
    apply StronglySorted_inv in Hs1 as [Hs1 Ha].
    apply StronglySorted_inv in Hs2 as [Hs2 Hb].
    rewrite List.Forall_forall in Ha, Hb.
    assert (Hab : a = b).
    { assert (Hina : In a (b :: l2)) by (eapply Permutation_in; [exact Hp | by left]).
      assert (Hinb : In b (a :: l1))
        by (eapply Permutation_in; [symmetry; exact Hp | by left]).
      destruct Hina as [-> | Hina]; [reflexivity|].
      destruct Hinb as [-> | Hinb]; [reflexivity|].
      apply Hanti; [by left | by right | by apply Ha | by apply Hb]. }
    subst b. f_equal. apply IH; auto.
    + by apply Permutation_cons_inv in Hp.
    + intros x y Hx Hy. apply Hanti; by right.
Qed.

(** Sorting does not depend on the order of the input when the comparator
    ties only equal elements. *)
Lemma sort_order_independent l1 l2 :
  Permutation l1 l2 →
  (∀ x y, In x l1 → In y l1 → compare x y <= 0 → compare y x <= 0 → x = y) →
  Js.sort compare l1 = Js.sort compare l2.
Proof.
  intros Hp Hanti. apply StronglySorted_unique.
  - rewrite !sort_Permutation. exact Hp.
  - apply sort_StronglySorted.
  - apply sort_StronglySorted.
  - intros x y Hx Hy. apply Hanti; by apply sort_In.
Qed.

End SortFacts.

Lemma StronglySorted_filter {A : Type} (R : A → A → Prop) (f : A → bool) l :
  StronglySorted R l → StronglySorted R (List.filter f l).
Proof.
  induction 1 as [|a l Hs IH Ha]; cbn; [constructor|].
  destruct (f a); [|exact IH].
  constructor; [exact IH|].
  rewrite List.Forall_forall in *. intros x Hx.
  apply List.filter_In in Hx as [Hx _]. auto.
Qed.

Lemma StronglySorted_weaken {A : Type} (R R' : A → A → Prop) l :
  (∀ x y, In x l → In y l → R x y → R' x y) →
  StronglySorted R l → StronglySorted R' l.
Proof.
  intros Himp Hs. induction Hs as [|a l Hs IH Ha]; [constructor|].
  constructor.
  - apply IH. intros x y Hx Hy. apply Himp; by right.
  - rewrite List.Forall_forall in *. intros x Hx.
    apply Himp; [by left | by right | auto].
Qed.

Lemma filter_Permutation {A : Type} (f : A → bool) l1 l2 :
  Permutation l1 l2 → Permutation (List.filter f l1) (List.filter f l2).
Proof.
  induction 1 as [|x l1 l2 Hp IH|x y l|l1 l2 l3 H1 IH1 H2 IH2]; cbn.
  - reflexivity.
  - destruct (f x); [by constructor | exact IH].
  - destruct (f x), (f y); try reflexivity. apply perm_swap.
  - by etrans.
Qed.

(** ** Plain objects used as maps *)
Section ObjectFacts.
Context {V : Type}.
Implicit Types (o : Js.object V) (k : string) (v : V).

Lemma get_own_None k o : Js.get_own k o = None ↔ ¬ In k (map fst o).
Proof.
  induction o as [|[k0 v0] o IH]; cbn; [tauto|].
  destruct (String.eqb_spec k0 k) as [-> | Hne].
  - split; [discriminate | tauto].
  - rewrite IH. tauto.
Qed.

Lemma get_own_In k v o : Js.get_own k o = Some v → In (k, v) o.
Proof.
  induction o as [|[k0 v0] o IH]; cbn; [discriminate|].
  destruct (String.eqb_spec k0 k) as [-> | Hne].
  - intros [= ->]. by left.
  - intros H. right. auto.
Qed.

Lemma In_get_own k v o :
  NoDup (map fst o) → In (k, v) o → Js.get_own k o = Some v.
Proof.
  induction o as [|[k0 v0] o IH]; cbn; [tauto|].
  intros Hnd [Heq | Hin].
  - injection Heq as -> ->. by rewrite String.eqb_refl.
  - apply NoDup_cons in Hnd as [Hnotin Hnd].
    destruct (String.eqb_spec k0 k) as [-> | Hne]; [|auto].
    exfalso. apply Hnotin. apply list_elem_of_In.
    change k with (fst (k, v)). by apply List.in_map.
Qed.

Lemma define_Permutation k v o : Permutation (Js.define k v o) ((k, v) :: o).
Proof.
  induction o as [|[k0 v0] o IH]; cbn; [reflexivity|].
  destruct (Js.key_precedes k k0); [reflexivity|].
  rewrite IH. apply perm_swap.
Qed.

Lemma get_own_define k v o k' :
  Js.get_own k o = None →
  Js.get_own k' (Js.define k v o)
  = if String.eqb k k' then Some v else Js.get_own k' o.
Proof.
  induction o as [|[k0 v0] o IH]; cbn; [reflexivity|].
  destruct (String.eqb_spec k0 k) as [-> | Hne]; [discriminate|].
  intros Hnone. destruct (Js.key_precedes k k0); cbn; [reflexivity|].
  rewrite (IH Hnone).
  destruct (String.eqb_spec k0 k') as [-> | Hne'];
    destruct (String.eqb_spec k k') as [-> | Hne'']; congruence.
Qed.

Lemma get_own_update k f o k' :
  Js.get_own k' (Js.update k f o)
  = if String.eqb k k' then f <$> Js.get_own k' o else Js.get_own k' o.
Proof.
  induction o as [|[k0 v0] o IH]; cbn; [by destruct (String.eqb k k')|].
  destruct (String.eqb_spec k0 k) as [-> | Hne]; cbn.
  - destruct (String.eqb_spec k k') as [-> | Hne']; reflexivity.
  - rewrite IH.
    destruct (String.eqb_spec k0 k') as [-> | Hne'];
      destruct (String.eqb_spec k k') as [-> | Hne'']; congruence.
Qed.

Lemma update_keys k f o : map fst (Js.update k f o) = map fst o.
Proof.
  induction o as [|[k0 v0] o IH]; cbn; [reflexivity|].
  destruct (String.eqb k0 k); cbn; congruence.
Qed.

Lemma define_NoDup k v o :
  NoDup (map fst o) → Js.get_own k o = None → NoDup (map fst (Js.define k v o)).
Proof.
  intros Hnd Hnone.
  assert (Hp : Permutation (map fst (Js.define k v o)) (k :: map fst o)).
  { change (k :: map fst o) with (map fst ((k, v) :: o)).
    apply Permutation_map, define_Permutation. }
  rewrite Hp. apply NoDup_cons. split; [|exact Hnd].
  rewrite list_elem_of_In. by apply get_own_None.
Qed.

End ObjectFacts.

(** ** HeaderBar: grouping the pin list *)
Section HeaderBarFacts.
Import HeaderBar.

Variable localeCompare : string → string → Z.

(** [localeCompare] is a consistent comparator: swapping the arguments
    flips the sign, and the order is transitive. *)
Hypothesis localeCompare_sym :
  ∀ a b, Z.sgn (localeCompare b a) = - Z.sgn (localeCompare a b).
Hypothesis localeCompare_trans :
  ∀ a b c, localeCompare a b <= 0 → localeCompare b c <= 0 → localeCompare a c <= 0.

Local Abbreviation pushError :=
  (JsError "Cannot read properties of undefined (reading 'push')").

Lemma ofMap_snoc k rs r :
  ofMap k (rs ++ [r]) = ofMap k rs ++ (if String.eqb (mapId r) k then [r] else []).
Proof.
  unfold ofMap. rewrite List.filter_app. cbn.
  by destruct (String.eqb (mapId r) k).
Qed.

Lemma ofMap_In k rs r : In r (ofMap k rs) ↔ In r rs ∧ mapId r = k.
Proof.
  unfold ofMap. rewrite List.filter_In. by rewrite String.eqb_eq.
Qed.

Lemma builtGroup_Some k rs g :
  builtGroup k rs = Some g →
  restaurants g = ofMap k rs
  ∧ ∃ r0, In r0 rs ∧ mapId r0 = k ∧ groupMapName g = mapName r0.
Proof.
  unfold builtGroup. destruct (ofMap k rs) as [|r0 t] eqn:E; [discriminate|].
  intros [= <-]. cbn. split; [reflexivity|].
  assert (Hin : In r0 (ofMap k rs)) by (rewrite E; by left).
  apply ofMap_In in Hin as [Hin Hk]. by exists r0.
Qed.

Lemma builtGroup_None k rs :
  builtGroup k rs = None ↔ ∀ r, In r rs → mapId r ≠ k.
Proof.
  unfold builtGroup. destruct (ofMap k rs) as [|r0 t] eqn:E.
  - split; [|reflexivity]. intros _ r Hin Hk.
    assert (In r (ofMap k rs)) by by apply ofMap_In. rewrite E in H. destruct H.
  - split; [discriminate|]. intros H. exfalso.
    assert (Hin : In r0 (ofMap k rs)) by (rewrite E; by left).
    apply ofMap_In in Hin as [Hin Hk]. by apply (H r0).
Qed.

Lemma builtGroup_snoc_same rs r :
  builtGroup (mapId r) (rs ++ [r])
  = Some (match builtGroup (mapId r) rs with
          | Some g => push r g
          | None => {| groupMapName := mapName r; restaurants := [r] |}
          end).
Proof.
  unfold builtGroup. rewrite ofMap_snoc, String.eqb_refl.
  destruct (ofMap (mapId r) rs) as [|r0 t]; reflexivity.
Qed.

Lemma builtGroup_snoc_other k rs r :
  mapId r ≠ k → builtGroup k (rs ++ [r]) = builtGroup k rs.
Proof.
  intros Hne. unfold builtGroup. rewrite ofMap_snoc.
  destruct (String.eqb_spec (mapId r) k); [contradiction|].
  by rewrite List.app_nil_r.
Qed.

Lemma addRestaurant_ok groups seen r :
  built groups seen → Js.inherited (mapId r) = false →
  ∃ groups', addRestaurant groups r = Ok groups' ∧ built groups' (seen ++ [r]).
Proof.
  intros [Hnd Hget] Hplain. unfold addRestaurant, get.
  rewrite (Hget (mapId r)).
  destruct (builtGroup (mapId r) seen) as [g|] eqn:Hb.
  - rewrite (Hget (mapId r)), Hb. eexists. split; [reflexivity|]. split.
    + by rewrite update_keys.
    + intros k. rewrite get_own_update, Hget.
      destruct (String.eqb_spec (mapId r) k) as [<- | Hne].
      * by rewrite builtGroup_snoc_same, Hb.
      * by rewrite builtGroup_snoc_other.
  - rewrite Hplain.
    assert (Hnone : Js.get_own (mapId r) groups = None) by by rewrite Hget.
    rewrite (get_own_define _ _ _ _ Hnone), String.eqb_refl.
    eexists. split; [reflexivity|]. split.
    + rewrite update_keys. by apply define_NoDup.
    + intros k. rewrite get_own_update, (get_own_define _ _ _ _ Hnone).
      destruct (String.eqb_spec (mapId r) k) as [<- | Hne].
      * by rewrite builtGroup_snoc_same, Hb.
      * by rewrite Hget, builtGroup_snoc_other.
Qed.

Lemma plainMapIds_spec rs :
  plainMapIds rs = true ↔ ∀ r, In r rs → Js.inherited (mapId r) = false.
Proof.
  unfold plainMapIds. rewrite List.forallb_forall.
  split; intros H r Hin; specialize (H r Hin); by destruct (Js.inherited (mapId r)).
Qed.

Lemma addRestaurant_throws groups seen r :
  built groups seen → plainMapIds seen = true → Js.inherited (mapId r) = true →
  addRestaurant groups r = Throw pushError.
Proof.
  intros [Hnd Hget] Hseen Hinh. unfold addRestaurant, get.
  assert (Hb : builtGroup (mapId r) seen = None).
  { apply builtGroup_None. intros r' Hin Heq.
    rewrite plainMapIds_spec in Hseen. specialize (Hseen r' Hin). congruence. }
  rewrite (Hget (mapId r)), Hb, Hinh. cbn. by rewrite (Hget (mapId r)), Hb.
Qed.

Lemma forEach_ok rs : ∀ groups seen,
  built groups seen → plainMapIds rs = true →
  ∃ groups', forEach groups rs = Ok groups' ∧ built groups' (seen ++ rs).
Proof.
  induction rs as [|r rs IH]; intros groups seen Hb Hplain; cbn.
  - exists groups. by rewrite List.app_nil_r.
  - change (plainMapIds (r :: rs))
      with (negb (Js.inherited (mapId r)) && plainMapIds rs) in Hplain.
    apply andb_true_iff in Hplain as [Hr Hrs].
    apply negb_true_iff in Hr.
    destruct (addRestaurant_ok groups seen r Hb Hr) as (groups1 & -> & Hb1).
    cbn. destruct (IH groups1 (seen ++ [r]) Hb1 Hrs) as (groups' & -> & Hb').
    exists groups'. split; [reflexivity|].
    by rewrite <- List.app_assoc in Hb'.
Qed.

Lemma forEach_throws rs : ∀ groups seen,
  built groups seen → plainMapIds seen = true → plainMapIds rs = false →
  forEach groups rs = Throw pushError.
Proof.
  induction rs as [|r rs IH]; intros groups seen Hb Hseen Hrs; cbn.
  - discriminate.
  - change (plainMapIds (r :: rs))
      with (negb (Js.inherited (mapId r)) && plainMapIds rs) in Hrs.
    destruct (Js.inherited (mapId r)) eqn:Hinh.
    + by rewrite (addRestaurant_throws groups seen r Hb Hseen Hinh).
    + cbn [negb andb] in Hrs.
      destruct (addRestaurant_ok groups seen r Hb Hinh) as (groups1 & -> & Hb1).
      cbn. apply (IH groups1 (seen ++ [r])); [exact Hb1 | | exact Hrs].
      unfold plainMapIds. rewrite List.forallb_app. cbn [forallb].
      unfold plainMapIds in Hseen. by rewrite Hseen, Hinh.
Qed.

Lemma plainMapIds_Permutation rs rs' :
  Permutation rs rs' → plainMapIds rs = plainMapIds rs'.
Proof.
  intros Hp. destruct (plainMapIds rs) eqn:E, (plainMapIds rs') eqn:E';
    try reflexivity.
  - rewrite plainMapIds_spec in E.
    assert (plainMapIds rs' = true); [|congruence].
    apply plainMapIds_spec. intros r Hin. apply E.
    eapply Permutation_in; [symmetry|]; eassumption.
  - rewrite plainMapIds_spec in E'.
    assert (plainMapIds rs = true); [|congruence].
    apply plainMapIds_spec. intros r Hin. apply E'.
    eapply Permutation_in; eassumption.
Qed.

Lemma built_empty : built ([] : Js.object Group) [].
Proof. split; [constructor | reflexivity]. Qed.

Lemma localeCompare_total a b : localeCompare a b <= 0 ∨ localeCompare b a <= 0.
Proof. pose proof (localeCompare_sym a b). lia. Qed.

Lemma localeCompare_tie a b :
  localeCompare a b <= 0 → localeCompare b a <= 0 → localeCompare a b = 0.
Proof. pose proof (localeCompare_sym a b). lia. Qed.

Lemma compareEntries_total active x y :
  compareEntries localeCompare active x y <= 0
  ∨ compareEntries localeCompare active y x <= 0.
Proof.
  destruct x as [kx gx], y as [ky gy]. cbn.
  destruct (is_active active kx), (is_active active ky); try lia.
  apply localeCompare_total.
Qed.

Lemma compareEntries_trans active x y z :
  compareEntries localeCompare active x y <= 0 →
  compareEntries localeCompare active y z <= 0 →
  compareEntries localeCompare active x z <= 0.
Proof.
  destruct x as [kx gx], y as [ky gy], z as [kz gz]. cbn.
  destruct (is_active active kx), (is_active active ky), (is_active active kz);
    try lia.
  apply localeCompare_trans.
Qed.

Lemma sortEntry_keys groups :
  map fst (map (sortEntry localeCompare) groups) = map fst groups.
Proof.
  induction groups as [|[k g] groups IH]; cbn; congruence.
Qed.

Lemma sortedGroups_In groups seen k g :
  built groups seen →
  In (k, g) (map (sortEntry localeCompare) groups)
  ↔ ∃ g0, builtGroup k seen = Some g0 ∧ g = sortRestaurants localeCompare g0.
Proof.
  intros [Hnd Hget]. rewrite List.in_map_iff. split.
  - intros ([k0 g0] & Heq & Hin). cbn in Heq. injection Heq as -> <-.
    exists g0. split; [|reflexivity]. rewrite <- Hget. by apply In_get_own.
  - intros (g0 & Hb & ->). exists (k, g0). split; [reflexivity|].
    apply get_own_In. by rewrite Hget.
Qed.

Lemma groupedByMap_ok rs active :
  plainMapIds rs = true →
  ∃ groups, built groups rs
    ∧ groupedByMap localeCompare rs active
      = Ok (Js.sort (compareEntries localeCompare active)
                    (map (sortEntry localeCompare) groups)).
Proof.
  intros Hplain.
  destruct (forEach_ok rs [] [] built_empty Hplain) as (groups & Hfe & Hb).
  exists groups. split; [exact Hb|].
  unfold groupedByMap. by rewrite Hfe.
Qed.

Lemma groupedByMap_throws rs active :
  plainMapIds rs = false →
  groupedByMap localeCompare rs active = Throw pushError.
Proof.
  intros Hplain. unfold groupedByMap.
  by rewrite (forEach_throws rs [] [] built_empty eq_refl Hplain).
Qed.

Lemma mapNamesAgree_spec rs r1 r2 :
  mapNamesAgree rs = true → In r1 rs → In r2 rs →
  mapId r1 = mapId r2 → mapName r1 = mapName r2.
Proof.
  unfold mapNamesAgree. rewrite List.forallb_forall. intros H H1 H2 Hid.
  specialize (H r1 H1). rewrite List.forallb_forall in H. specialize (H r2 H2).
  apply String.eqb_eq in Hid. rewrite Hid in H. by apply String.eqb_eq.
Qed.

Lemma namesDistinct_spec rs r1 r2 :
  namesDistinct localeCompare rs = true → In r1 rs → In r2 rs →
  mapId r1 = mapId r2 → localeCompare (name r1) (name r2) = 0 → r1 = r2.
Proof.
  unfold namesDistinct. rewrite List.forallb_forall. intros H H1 H2 Hid Hname.
  specialize (H r1 H1). rewrite List.forallb_forall in H. specialize (H r2 H2).
  apply String.eqb_eq in Hid. apply Z.eqb_eq in Hname. rewrite Hid, Hname in H.
  by apply bool_decide_eq_true in H.
Qed.

Lemma mapNamesDistinct_spec rs active r1 r2 :
  mapNamesDistinct localeCompare rs active = true → In r1 rs → In r2 rs →
  is_active active (mapId r1) = false → is_active active (mapId r2) = false →
  localeCompare (mapName r1) (mapName r2) = 0 → mapId r1 = mapId r2.
Proof.
  unfold mapNamesDistinct. rewrite List.forallb_forall. intros H H1 H2 Ha1 Ha2 Hname.
  specialize (H r1 H1). rewrite List.forallb_forall in H. specialize (H r2 H2).
  apply Z.eqb_eq in Hname. rewrite Ha1, Ha2, Hname in H. by apply String.eqb_eq.
Qed.

(** With names that never tie inside a map and one name per map, the sorted
    group of a map does not depend on the order of the list. *)
Lemma sortedGroup_order_independent rs rs' k :
  Permutation rs rs' →
  mapNamesAgree rs = true → namesDistinct localeCompare rs = true →
  sortRestaurants localeCompare <$> builtGroup k rs'
  = sortRestaurants localeCompare <$> builtGroup k rs.
Proof.
  intros Hp Hagree Hdistinct.
  assert (Hpk : Permutation (ofMap k rs') (ofMap k rs))
    by (symmetry; by apply filter_Permutation).
  assert (Hsort : Js.sort (byName localeCompare) (ofMap k rs')
                  = Js.sort (byName localeCompare) (ofMap k rs)).
  { apply sort_order_independent; [| |exact Hpk|].
    - intros x y. apply localeCompare_total.
    - intros x y z. apply localeCompare_trans.
    - intros x y Hx Hy Hxy Hyx.
      apply ofMap_In in Hx as [Hx Hkx]. apply ofMap_In in Hy as [Hy Hky].
      apply (namesDistinct_spec rs); try congruence.
      + eapply Permutation_in; [symmetry|]; eassumption.
      + eapply Permutation_in; [symmetry|]; eassumption.
      + by apply localeCompare_tie. }
  unfold builtGroup.
  destruct (ofMap k rs') as [|r0' t'] eqn:E', (ofMap k rs) as [|r0 t] eqn:E.
  - reflexivity.
  - apply Permutation_nil in Hpk. discriminate.
  - symmetry in Hpk. apply Permutation_nil in Hpk. discriminate.
  - unfold sortRestaurants.
    cbn [fmap option_fmap option_map restaurants groupMapName].
    rewrite Hsort. do 2 f_equal.
    assert (H0' : In r0' (ofMap k rs')) by (rewrite E'; by left).
    assert (H0 : In r0 (ofMap k rs)) by (rewrite E; by left).
    apply ofMap_In in H0' as [H0' Hk']. apply ofMap_In in H0 as [H0 Hk].
    apply (mapNamesAgree_spec rs); try congruence.
    eapply Permutation_in; [symmetry|]; eassumption.
Qed.

(** The whole result does not depend on the order of the list when, in
    addition, map names tie only for the same map. *)
Lemma groupedByMap_order_independent rs rs' active :
  Permutation rs rs' →
  mapNamesAgree rs = true → namesDistinct localeCompare rs = true →
  mapNamesDistinct localeCompare rs active = true →
  groupedByMap localeCompare rs' active = groupedByMap localeCompare rs active.
Proof.
  intros Hp Hagree Hdistinct Hmaps.
  destruct (plainMapIds rs) eqn:Hplain.
  2:{ rewrite !groupedByMap_throws; [reflexivity | exact Hplain |].
      by rewrite <- (plainMapIds_Permutation rs rs'). }
  destruct (groupedByMap_ok rs active Hplain) as (G & HG & ->).
  assert (Hplain' : plainMapIds rs' = true)
    by by rewrite <- (plainMapIds_Permutation rs rs').
  destruct (groupedByMap_ok rs' active Hplain') as (G' & HG' & ->).
  f_equal.
  assert (Hsame : ∀ e, In e (map (sortEntry localeCompare) G')
                       ↔ In e (map (sortEntry localeCompare) G)).
  { intros [k g]. rewrite (sortedGroups_In G' rs' k g HG'), (sortedGroups_In G rs k g HG).
    pose proof (sortedGroup_order_independent rs rs' k Hp Hagree Hdistinct) as Hk.
    destruct (builtGroup k rs') as [g0'|], (builtGroup k rs) as [g0|];
      cbn [fmap option_fmap option_map] in Hk; try discriminate.
    - apply (inj Some) in Hk.
      split; intros (g1 & [= <-] & ->); eexists; split; try reflexivity;
        congruence.
    - split; intros (g1 & [=] & _). }
  apply sort_order_independent.
  - apply compareEntries_total.
  - apply compareEntries_trans.
  - apply NoDup_Permutation.
    + eapply NoDup_fmap_1 with (f := fst).
      change (NoDup (map fst (map (sortEntry localeCompare) G'))).
      rewrite sortEntry_keys. apply HG'.
    + eapply NoDup_fmap_1 with (f := fst).
      change (NoDup (map fst (map (sortEntry localeCompare) G))).
      rewrite sortEntry_keys. apply HG.
    + intros e. rewrite !list_elem_of_In. apply Hsame.
  - intros [k1 g1] [k2 g2] H1 H2 H12 H21.
    apply Hsame in H1, H2.
    apply (sortedGroups_In G rs _ _ HG) in H1 as (g01 & Hb1 & ->).
    apply (sortedGroups_In G rs _ _ HG) in H2 as (g02 & Hb2 & ->).
    assert (Hk : k1 = k2).
    { cbn in H12, H21.
      destruct (builtGroup_Some _ _ _ Hb1) as (_ & r1 & Hr1 & Hid1 & Hn1).
      destruct (builtGroup_Some _ _ _ Hb2) as (_ & r2 & Hr2 & Hid2 & Hn2).
      destruct (is_active active k1) eqn:A1, (is_active active k2) eqn:A2; try lia.
      - unfold is_active in A1, A2. destruct active as [a|]; [|discriminate].
        apply String.eqb_eq in A1, A2. congruence.
      - rewrite <- Hid1, <- Hid2.
        apply (mapNamesDistinct_spec rs active); try congruence.
        rewrite <- Hn1, <- Hn2. by apply localeCompare_tie. }
    subst k2. congruence.
Qed.

Lemma builtGroup_head k rs g :
  builtGroup k rs = Some g →
  ∃ r0, head (ofMap k rs) = Some r0 ∧ groupMapName g = mapName r0.
Proof.
  unfold builtGroup. destruct (ofMap k rs) as [|r0 t]; [discriminate|].
  intros [= <-]. by exists r0.
Qed.

Lemma builtGroup_of_member rs r :
  In r rs → ∃ g0, builtGroup (mapId r) rs = Some g0.
Proof.
  intros Hin. destruct (builtGroup (mapId r) rs) as [g0|] eqn:E; [by exists g0|].
  exfalso. by apply (proj1 (builtGroup_None _ _) E r).
Qed.

(** The entries of the result: one per map, holding the sorted group. *)
Lemma groupedByMap_entries rs active :
  plainMapIds rs = true →
  ∃ entries, groupedByMap localeCompare rs active = Ok entries
    ∧ NoDup (map fst entries)
    ∧ StronglySorted (λ e1 e2, compareEntries localeCompare active e1 e2 <= 0) entries
    ∧ ∀ k g, In (k, g) entries
             ↔ ∃ g0, builtGroup k rs = Some g0
                     ∧ g = sortRestaurants localeCompare g0.
Proof.
  intros Hplain. destruct (groupedByMap_ok rs active Hplain) as (G & HG & ->).
  eexists. split; [reflexivity|]. split; [|split].
  - rewrite (Permutation_map fst (sort_Permutation _ _)), sortEntry_keys. apply HG.
  - apply sort_StronglySorted.
    + apply compareEntries_total.
    + apply compareEntries_trans.
  - intros k g. rewrite sort_In. by apply sortedGroups_In.
Qed.

(** The active map's group is the first entry. *)
Lemma active_entry_first active a (entries : list (string * Group)) g :
  active = Some a →
  StronglySorted (λ e1 e2, compareEntries localeCompare active e1 e2 <= 0) entries →
  In (a, g) entries →
  ∃ g' rest, entries = (a, g') :: rest.
Proof.
  intros -> Hs Hin. destruct entries as [|[k1 g1] rest]; [destruct Hin|].
  destruct (String.eqb_spec k1 a) as [-> | Hne]; [by exists g1, rest|].
  exfalso. destruct Hin as [Heq | Hin]; [congruence|].
  apply StronglySorted_inv in Hs as [_ Hall].
  rewrite List.Forall_forall in Hall. specialize (Hall _ Hin). cbn in Hall.
  destruct (String.eqb_spec k1 a); [contradiction|].
  rewrite String.eqb_refl in Hall. lia.
Qed.

(** The other entries are in ascending order of map name. *)
Lemma other_entries_by_name active (entries : list (string * Group)) :
  StronglySorted (λ e1 e2, compareEntries localeCompare active e1 e2 <= 0) entries →
  StronglySorted (λ e1 e2, byMapName localeCompare e1 e2 <= 0)
    (List.filter (λ e, negb (is_active active (fst e))) entries).
Proof.
  intros Hs.
  eapply StronglySorted_weaken; [|apply StronglySorted_filter, Hs].
  intros [k1 g1] [k2 g2] H1 H2.
  apply List.filter_In in H1 as [_ H1]. apply List.filter_In in H2 as [_ H2].
  cbn in H1, H2. apply negb_true_iff in H1, H2.
  unfold byMapName. cbn. by rewrite H1, H2.
Qed.

(** C6, as amended.  For a consistent [localeCompare] and a list whose map
    ids are not names inherited from Object.prototype, the result has one
    entry per map id; an entry holds exactly the restaurants of its map, in
    ascending order of name, under the map name of the first of them in the
    list; the active map's entry, when the map has a restaurant, comes
    first, and the other entries are in ascending order of map name.  The
    result is the same for every permutation of the list provided that all
    restaurants of a map carry the same map name, that names compare equal
    inside a map only for the same record, and that map names compare equal
    only for the same map (the active one apart). *)
Theorem C6_groupedByMap rs active :
  (plainMapIds rs = true →
   ∃ entries, groupedByMap localeCompare rs active = Ok entries
     ∧ NoDup (map fst entries)
     ∧ (∀ r, In r rs → ∃ g, In (mapId r, g) entries ∧ In r (restaurants g))
     ∧ (∀ k g, In (k, g) entries →
          Permutation (restaurants g) (ofMap k rs)
          ∧ (∃ r0, head (ofMap k rs) = Some r0 ∧ groupMapName g = mapName r0)
          ∧ StronglySorted (λ a b, byName localeCompare a b <= 0) (restaurants g))
     ∧ (∀ a, active = Some a → (∃ r, In r rs ∧ mapId r = a) →
          ∃ g rest, entries = (a, g) :: rest)
     ∧ StronglySorted (λ e1 e2, byMapName localeCompare e1 e2 <= 0)
         (List.filter (λ e, negb (is_active active (fst e))) entries))
  ∧ (∀ rs', Permutation rs rs' →
       mapNamesAgree rs = true →
       namesDistinct localeCompare rs = true →
       mapNamesDistinct localeCompare rs active = true →
       groupedByMap localeCompare rs' active = groupedByMap localeCompare rs active).
Proof.
  split; [|intros rs'; apply groupedByMap_order_independent].
  intros Hplain.
  destruct (groupedByMap_entries rs active Hplain) as (entries & Hres & Hnd & Hs & Hin).
  exists entries. split; [exact Hres|]. split; [exact Hnd|].
  split; [|split; [|split]].
  - intros r Hr. destruct (builtGroup_of_member rs r Hr) as (g0 & Hb).
    exists (sortRestaurants localeCompare g0). split; [apply Hin; eauto|].
    cbn. apply sort_In. destruct (builtGroup_Some _ _ _ Hb) as (-> & _).
    by apply ofMap_In.
  - intros k g Hkg. apply Hin in Hkg as (g0 & Hb & ->).
    destruct (builtGroup_Some _ _ _ Hb) as (Hrs & _).
    split; [|split].
    + cbn. rewrite sort_Permutation. by rewrite Hrs.
    + destruct (builtGroup_head _ _ _ Hb) as (r0 & Hh & Hn). by exists r0.
    + cbn. apply sort_StronglySorted.
      * intros x y. apply localeCompare_total.
      * intros x y z. apply localeCompare_trans.
  - intros a Ha (r & Hr & Hid).
    destruct (builtGroup_of_member rs r Hr) as (g0 & Hb). rewrite Hid in Hb.
    eapply (active_entry_first active a entries); [exact Ha | exact Hs|].
    apply Hin. eauto.
  - by apply other_entries_by_name.
Qed.

End HeaderBarFacts.

(** ** The code-unit comparator is a consistent comparator *)

Lemma codeUnitCompare_sym a b :
  Z.sgn (Js.codeUnitCompare b a) = - Z.sgn (Js.codeUnitCompare a b).
Proof.
  unfold Js.codeUnitCompare. rewrite (String.compare_antisym a b).
  by destruct (String.compare b a).
Qed.

Lemma codeUnitCompare_le a b : Js.codeUnitCompare a b <= 0 ↔ String.le a b.
Proof.
  unfold Js.codeUnitCompare, String.le, String.leb.
  destruct (String.compare a b); cbn; split; intros H; try done; lia.
Qed.

Lemma codeUnitCompare_trans a b c :
  Js.codeUnitCompare a b <= 0 → Js.codeUnitCompare b c <= 0 →
  Js.codeUnitCompare a c <= 0.
Proof.
  rewrite !codeUnitCompare_le. intros Hab Hbc. by etrans.
Qed.

Lemma C6_groupedByMap_witness :
  (∃ entries,
     HeaderBar.groupedByMap Js.codeUnitCompare Samples.pins (Some "map-trip")
     = Ok entries
     ∧ ∃ g rest, entries = ("map-trip", g) :: rest)
  ∧ HeaderBar.groupedByMap Js.codeUnitCompare (rev Samples.pins) (Some "map-trip")
    = HeaderBar.groupedByMap Js.codeUnitCompare Samples.pins (Some "map-trip").
Proof.
  pose proof (C6_groupedByMap Js.codeUnitCompare codeUnitCompare_sym
                codeUnitCompare_trans Samples.pins (Some "map-trip"))
    as [Hgroups Hperm].
  split.
  - destruct (Hgroups eq_refl) as (entries & Hres & _ & _ & _ & Hfirst & _).
    exists entries. split; [exact Hres|].
    apply (Hfirst "map-trip" eq_refl).
    exists (Samples.restaurant "r6" "Atelier" "map-trip" "Trip").
    split; [right; left; reflexivity | reflexivity].
  - apply Hperm.
    + apply Permutation_rev.
    + reflexivity.
    + reflexivity.
    + reflexivity.
Defined.

(** Ties keep the input order whatever [localeCompare] is, as long as it
    compares a string equal to itself. *)
Lemma same_name_keeps_input_order (localeCompare : string → string → Z) :
  (∀ s, localeCompare s s = 0) →
  HeaderBar.groupedByMap localeCompare [Samples.branchA; Samples.branchB] None
  = Ok [("map-home", {| HeaderBar.groupMapName := "Home";
                        HeaderBar.restaurants := [Samples.branchA; Samples.branchB] |})]
  ∧ HeaderBar.groupedByMap localeCompare [Samples.branchB; Samples.branchA] None
    = Ok [("map-home", {| HeaderBar.groupMapName := "Home";
                          HeaderBar.restaurants := [Samples.branchB; Samples.branchA] |})].
Proof.
  intros Hrefl. unfold HeaderBar.groupedByMap. cbn.
  unfold HeaderBar.sortRestaurants, HeaderBar.push, HeaderBar.byName. cbn.
  by rewrite Hrefl.
Qed.

(** The claim as first stated fails on ties.  Two branches with the same
    name on one map come out in the order they came in, and so do two maps
    that share a name: swapping the two inputs changes the output. *)
Lemma C6_counterexample_ties :
  (Permutation [Samples.branchA; Samples.branchB] [Samples.branchB; Samples.branchA]
   ∧ HeaderBar.groupedByMap Js.codeUnitCompare [Samples.branchA; Samples.branchB] None
     = Ok [("map-home", {| HeaderBar.groupMapName := "Home";
                           HeaderBar.restaurants := [Samples.branchA; Samples.branchB] |})]
   ∧ HeaderBar.groupedByMap Js.codeUnitCompare [Samples.branchB; Samples.branchA] None
     = Ok [("map-home", {| HeaderBar.groupMapName := "Home";
                           HeaderBar.restaurants := [Samples.branchB; Samples.branchA] |})]
   ∧ HeaderBar.groupedByMap Js.codeUnitCompare [Samples.branchA; Samples.branchB] None
     ≠ HeaderBar.groupedByMap Js.codeUnitCompare [Samples.branchB; Samples.branchA] None)
  ∧ (Permutation [Samples.annFavourite; Samples.bobFavourite]
                 [Samples.bobFavourite; Samples.annFavourite]
     ∧ HeaderBar.groupedByMap Js.codeUnitCompare
         [Samples.annFavourite; Samples.bobFavourite] None
       ≠ HeaderBar.groupedByMap Js.codeUnitCompare
           [Samples.bobFavourite; Samples.annFavourite] None).
Proof.
  split; [split; [apply perm_swap|split; [reflexivity|split; [reflexivity|]]]|].
  - vm_compute. discriminate.
  - split; [apply perm_swap|]. vm_compute. discriminate.
Qed.

(** * Further properties of the code *)

(** ** geminiService: normalising the image *)
Section GeminiImageFacts.
Import GeminiService.








Lemma raw_spec (s : string) :
  raw s = true →
  startsWith s "blob:" = false
  ∧ strip_data_url_prefix data_url_prefixes s = s.
Proof.
  unfold raw. intros H. apply andb_true_iff in H as [Hb Hp].
  apply negb_true_iff in Hb. split; [exact Hb|].
  induction data_url_prefixes as [|p ps IH]; [reflexivity|].
  cbn in Hp. apply andb_true_iff in Hp as [Hp Hps].
  apply negb_true_iff in Hp. cbn. rewrite Hp. by apply IH.
Qed.

Lemma data_url_header_cases (p payload : string) :
  In p data_url_prefixes →
  startsWith (p +:+ payload) "blob:" = false
  ∧ strip_data_url_prefix data_url_prefixes (p +:+ payload) = payload.
Proof.
  intros Hp. cbn in Hp.
  destruct Hp as [<- | [<- | [<- | [<- | [<- | []]]]]]; split; vm_compute;
    try reflexivity; induction payload; reflexivity.
Qed.

(** X1: The header of a data URL the pattern knows is removed before the image
    is sent, so a data URL and its raw payload give the same outcome. *)
Theorem data_url_header_removed env p payload comment rname :
  In p data_url_prefixes →
  cleanBase64 env (p +:+ payload) = Ok (Some payload)
  ∧ (raw payload = true →
       generateFoodDescription env (p +:+ payload) comment rname
       = generateFoodDescription env payload comment rname).
Proof.
  intros Hp. destruct (data_url_header_cases p payload Hp) as [Hb Hs].
  assert (Hc : cleanBase64 env (p +:+ payload) = Ok (Some payload)).
  { unfold cleanBase64. by rewrite Hb, Hs. }
  split; [exact Hc|]. intros Hraw.
  destruct (raw_spec payload Hraw) as [Hb' Hs'].
  unfold generateFoodDescription, model_call. rewrite Hc.
  unfold cleanBase64. by rewrite Hb', Hs'.
Qed.

Lemma data_url_header_removed_witness :
  cleanBase64 Cases.env_blob "data:image/webp;base64,UklGRg==" = Ok (Some "UklGRg==")
  ∧ generateFoodDescription Cases.env_blob "data:image/webp;base64,UklGRg=="
      "crispy" "Luigi's"
    = generateFoodDescription Cases.env_blob "UklGRg==" "crispy" "Luigi's".
Proof.
  destruct (data_url_header_removed Cases.env_blob "data:image/webp;base64,"
              "UklGRg==" "crispy" "Luigi's") as [Hclean Hsame].
  - cbn. tauto.
  - split; [exact Hclean | apply Hsame; reflexivity].
Defined.

(** X2: Anything else that is not a blob reference is sent as it is, header
    included: a data URL of a type the pattern does not list keeps its
    header. *)
Theorem unknown_header_sent_unchanged env s :
  raw s = true → cleanBase64 env s = Ok (Some s).
Proof.
  intros Hraw. destruct (raw_spec s Hraw) as [Hb Hs].
  unfold cleanBase64. by rewrite Hb, Hs.
Qed.

Lemma unknown_header_sent_unchanged_witness :
  cleanBase64 Cases.env_blob "data:image/gif;base64,R0lGODlh"
  = Ok (Some "data:image/gif;base64,R0lGODlh").
Proof.
  apply (unknown_header_sent_unchanged Cases.env_blob "data:image/gif;base64,R0lGODlh").
  reflexivity.
Defined.



End GeminiImageFacts.

(** ** PendingScreen: the cooldown over any run, and the buttons *)
Section PendingScreenRunFacts.
Import PendingScreen.

Lemma step_keeps_bounds st ev :
  armed st ∧ 0 <= resendCooldown st <= 60 →
  armed (step st ev) ∧ 0 <= resendCooldown (step st ev) <= 60.
Proof.
  intros [Harmed Hb]. destruct ev as [|[[]|e]]; cbn [step].
  - destruct (Z.eq_dec (resendCooldown st) 0) as [Hz | Hnz].
    + rewrite tick_stopped by (auto; lia). auto.
    + destruct (tick_running st Harmed ltac:(lia)) as [Hc Ha]. split; [exact Ha|lia].
  - split; [by apply handleResendVerification_armed|].
    rewrite handleResendVerification_sent. lia.
  - rewrite handleResendVerification_failed. auto.
Qed.

(** X4: Whatever the order of seconds passing and resend attempts settling, the
    cooldown stays between 0 and 60, and a timeout is armed exactly while
    it is above 0. *)
Theorem cooldown_stays_within_bounds (evs : list Event) :
  let st := after evs initial in
  0 <= resendCooldown st <= 60
  ∧ (timer st = None ↔ resendCooldown st = 0).
Proof.
  assert (H : ∀ st, armed st ∧ 0 <= resendCooldown st <= 60 →
                    armed (after evs st) ∧ 0 <= resendCooldown (after evs st) <= 60).
  { induction evs as [|ev evs IH]; intros st Hst; [exact Hst|].
    cbn. apply IH. by apply step_keeps_bounds. }
  destruct (H initial) as [Harmed Hb].
  { split; [apply initial_armed | cbn; lia]. }
  cbv zeta. split; [exact Hb|].
  rewrite Harmed. unfold effect.
  destruct (0 <? resendCooldown (after evs initial)) eqn:E.
  - apply Z.ltb_lt in E. split; [discriminate | lia].
  - apply Z.ltb_ge in E. split; [lia | reflexivity].
Qed.

Ltac offered :=
  eexists;
  split; [ (left + (right; left) + (right; right; left)); reflexivity | idtac ];
  cbn; first [reflexivity | split; reflexivity].

Ltac no_such H :=
  let c := fresh "c" in
  let Hin := fresh "Hin" in
  let Hc := fresh "Hc" in
  destruct H as (c & Hin & Hc);
  repeat (destruct Hin as [<- | Hin]; [discriminate Hc|]);
  destruct Hin.

(** X5: Which buttons the screen offers: the status refresh always, disabled
    while a check is running; the resend only to a user who is neither
    verified nor approved by an admin; the logout to everyone except the
    user an admin approved before the email was verified. *)
Theorem pending_screen_buttons p st :
  (∃ c, In c (render p st) ∧ onClick c = RefreshStatus
        ∧ controlDisabled c = isCheckingStatus p)
  ∧ ((∃ c, In c (render p st) ∧ onClick c = ResendVerification)
     ↔ emailVerified p = false ∧ adminApproved p = false)
  ∧ ((∃ c, In c (render p st) ∧ onClick c = Logout)
     ↔ ¬ (adminApproved p = true ∧ emailVerified p = false)).
Proof.
  unfold render, isManuallyApproved.
  destruct (adminApproved p), (emailVerified p); cbn;
    (split; [offered | split; split]);
    try (intros _; by split);
    try (intros H; by no_such H);
    try (intros _; offered);
    try (intros [? ?]; discriminate);
    try (intros H; exfalso; apply H; by split);
    try (intros _ [? ?]; discriminate).
Qed.

End PendingScreenRunFacts.

(** ** Tutorial: moving through the tour *)
Section TutorialTourFacts.
Import TutorialTour.



(** X6: "Next" moves exactly one step forward and ends the transition; on the
    last step it does nothing. *)
Theorem next_moves_one_step (w : World) :
  timeouts w = [] →
  let i := currentStepIndex (currentStep (ui w)) in
  (currentStep (ui w) ≠ complete →
     let w' := settle 1 (run (goToNextStep i) w) in
     currentStepIndex (currentStep (ui w')) = i + 1
     ∧ isTransitioning (ui w') = false
     ∧ timeouts w' = [])
  ∧ (currentStep (ui w) = complete → run (goToNextStep i) w = w).
Proof.
  destruct w as [[step tr hr vis] ts fw cl]. cbn [timeouts ui currentStep].
  intros ->. split.
  - intros Hne. destruct step; try contradiction; by vm_compute.
  - intros ->. reflexivity.
Qed.

Lemma next_moves_one_step_witness :
  currentStepIndex (currentStep (ui (settle 1 (run (goToNextStep 0)
                                              (Cases.tourAt welcome None)))))
  = 1.
Proof.
  apply (proj1 (proj1 (next_moves_one_step (Cases.tourAt welcome None) eq_refl)
                  ltac:(discriminate))).
Defined.

(** X7: Each step before the last has exactly one way forward: a "Next" button
    in the card, or a click on the highlighted target.  The way out is
    always there: "Skip" before the last step, "Finish" on it.  On a click
    step, once the highlight was measured, the target can be clicked when
    it is on the page; when it is not, "Skip" is all that is left. *)
Theorem ways_forward (st : State) :
  (currentStep st ≠ complete →
     (contentButton (currentStep st) = Some GoToNextStep
      ↔ clickRequired (currentStep st) = false)
     ∧ (contentButton (currentStep st) = None
        ↔ clickRequired (currentStep st) = true))
  ∧ (In HandleSkip (render true st) ↔ currentStep st ≠ complete)
  ∧ (In HandleComplete (render true st) ↔ currentStep st = complete)
  ∧ (∀ querySelector : string → option Tutorial.DOMRect,
       clickRequired (currentStep st) = true →
       render true (updateHighlight querySelector st)
       = match (currentConfig (currentStep st) ≫= targetSelector) ≫= querySelector with
         | Some _ => [HandleHighlightClick; HandleSkip]
         | None => [HandleSkip]
         end).
Proof.
  destruct st as [step tr hr vis]. cbn [currentStep highlightRect].
  split; [|split; [|split]].
  - intros Hne. destruct step; try contradiction; vm_compute; split; split;
      (discriminate || reflexivity).
  - unfold render. cbn [negb currentStep highlightRect].
    destruct hr, step; vm_compute; split; intros H;
      try discriminate; try tauto;
      repeat destruct H as [H | H]; try discriminate H; try destruct H.
  - unfold render. cbn [negb currentStep highlightRect].
    destruct hr, step; vm_compute; split; intros H;
      try discriminate; try reflexivity; try tauto;
      repeat destruct H as [H | H]; try discriminate H; try destruct H.
  - intros querySelector Hclick.
    destruct step; vm_compute in Hclick; try discriminate;
      vm_compute;
      match goal with |- context [querySelector ?sel] =>
        destruct (querySelector sel) end; reflexivity.
Qed.

Lemma ways_forward_witness :
  render true (updateHighlight (λ _, None)
                 (ui (Cases.tourAt search_bar (Some Samples.top_target))))
  = [HandleSkip].
Proof.
  apply (proj2 (proj2 (proj2 (ways_forward
           (ui (Cases.tourAt search_bar (Some Samples.top_target))))))
           (λ _, None)).
  reflexivity.
Defined.

(** A click on the highlight does nothing on a step that does not ask for
    one. *)
Lemma highlight_click_ignored found (w : World) :
  clickRequired (currentStep (ui w)) = false →
  run (handleHighlightClick found) w = w.
Proof.
  destruct w as [[step tr hr vis] ts fw cl]. cbn [ui currentStep].
  intros Hclick. destruct step; vm_compute in Hclick; try discriminate; reflexivity.
Qed.













End TutorialTourFacts.

(** ** InfoModal: closing *)
Section InfoModalFacts.
Import InfoModal.

Lemma after_snoc evs ev : after (evs ++ [ev]) = step (after evs) ev.
Proof. unfold after. by rewrite fold_left_app. Qed.

(** X9: However often the backdrop and the close button are clicked, and
    whenever the timers fire, [onClose] is scheduled once at most: the calls
    made and the calls still pending add up to one after the first click,
    and to none before it. *)
Theorem info_modal_closes_once (evs : list Event) :
  (closed (after evs) + timeouts (after evs))%nat
  = (if isClosing (after evs) then 1 else 0)%nat
  ∧ (isClosing (after evs) = true ↔ In Click evs).
Proof.
  induction evs as [|ev evs [IHn IHc]] using rev_ind.
  - split; [reflexivity|]. split; [discriminate | intros []].
  - rewrite after_snoc. destruct (after evs) as [c t n]. cbn in IHn, IHc.
    rewrite List.in_app_iff. destruct ev; cbn.
    + unfold handleClose. cbn. destruct c; cbn.
      * split; [exact IHn|]. split; [intros _; right; by left | done].
      * split; [lia|]. split; [intros _; right; by left | done].
    + unfold fire. cbn. destruct t as [|t]; cbn.
      * split; [exact IHn|]. rewrite IHc. split; [tauto|].
        intros [H | [H | []]]; [exact H | discriminate H].
      * split; [lia|]. rewrite IHc. split; [tauto|].
        intros [H | [H | []]]; [exact H | discriminate H].
Qed.

End InfoModalFacts.

(** ** NotificationPanel: the age of a notification *)
Section NotificationPanelFacts.
Import NotificationPanel.

Lemma floor_div_bounds (a b : Z) : 0 < b → b * (a / b) <= a < b * (a / b + 1).
Proof.
  intros Hb. pose proof (Z.div_mod a b ltac:(lia)).
  pose proof (Z.mod_pos_bound a b Hb). lia.
Qed.

(** X10: The age shown for a notification: "Just now" under a minute (and for a
    date in the future), whole minutes from 1 to 59 under an hour, whole
    hours from 1 to 23 under a day, whole days from 1 to 6 under a week, and
    the calendar date from a week on. *)
Theorem formatTimeAgo_cases (diffMs : Z) (localeDate : string) :
  (diffMs < 60000 ∧ formatTimeAgo (Some diffMs) localeDate = "Just now")
  ∨ (60000 <= diffMs < 3600000
     ∧ ∃ m, 1 <= m <= 59 ∧ 60000 * m <= diffMs < 60000 * (m + 1)
            ∧ formatTimeAgo (Some diffMs) localeDate = pretty m +:+ "m ago")
  ∨ (3600000 <= diffMs < 86400000
     ∧ ∃ h, 1 <= h <= 23 ∧ 3600000 * h <= diffMs < 3600000 * (h + 1)
            ∧ formatTimeAgo (Some diffMs) localeDate = pretty h +:+ "h ago")
  ∨ (86400000 <= diffMs < 604800000
     ∧ ∃ d, 1 <= d <= 6 ∧ 86400000 * d <= diffMs < 86400000 * (d + 1)
            ∧ formatTimeAgo (Some diffMs) localeDate = pretty d +:+ "d ago")
  ∨ (604800000 <= diffMs ∧ formatTimeAgo (Some diffMs) localeDate = localeDate).
Proof.
  pose proof (floor_div_bounds diffMs 60000 ltac:(lia)) as Hm.
  pose proof (floor_div_bounds diffMs 3600000 ltac:(lia)) as Hh.
  pose proof (floor_div_bounds diffMs 86400000 ltac:(lia)) as Hd.
  unfold formatTimeAgo.
  destruct (Z.ltb_spec (diffMs / 60000) 1) as [H1 | H1].
  { left. split; [lia | reflexivity]. }
  right. destruct (Z.ltb_spec (diffMs / 60000) 60) as [H2 | H2].
  { left. split; [lia|]. exists (diffMs / 60000). repeat split; lia. }
  right. destruct (Z.ltb_spec (diffMs / 3600000) 24) as [H3 | H3].
  { left. split; [lia|]. exists (diffMs / 3600000). repeat split; lia. }
  right. destruct (Z.ltb_spec (diffMs / 86400000) 7) as [H4 | H4].
  { left. split; [lia|]. exists (diffMs / 86400000). repeat split; lia. }
  right. split; [lia | reflexivity].
Qed.

End NotificationPanelFacts.

(** ** HeaderBar: opening and closing the notification panel *)
Section HeaderBarNotificationFacts.
Import HeaderBarNotifications.

Lemma notif_after_snoc evs ev : after (evs ++ [ev]) = step (after evs) ev.
Proof. unfold after. by rewrite fold_left_app. Qed.

Lemma fire_all_closes (w : World) :
  (0 < timeouts w)%nat →
  Nat.iter (timeouts w) fire w
  = {| isNotifOpen := false; isNotifClosing := false; timeouts := O |}.
Proof.
  destruct w as [o c n]. cbn [timeouts]. revert o c.
  induction n as [|n IH]; intros o c Hn; [lia|].
  rewrite Nat.iter_succ_r. unfold fire at 2. cbn [timeouts].
  destruct n as [|n']; [reflexivity|]. apply IH. lia.
Qed.

(** X11: Whatever the clicks on the bell and on the backdrop, and whenever the
    timers fire: the panel shows its closing animation only while a timer
    is pending, so it cannot stay half closed; and once the pending timers
    have fired the panel is gone, also when the bell was clicked again in
    between. *)
Theorem notification_panel_never_stuck (evs : list Event) :
  (isNotifClosing (after evs) = true → (0 < timeouts (after evs))%nat)
  ∧ (timeouts (after evs) = O → panelRendered (after evs) = isNotifOpen (after evs))
  ∧ ((0 < timeouts (after evs))%nat →
       panelRendered (Nat.iter (timeouts (after evs)) fire (after evs)) = false).
Proof.
  assert (Hinv : isNotifClosing (after evs) = true → (0 < timeouts (after evs))%nat).
  { induction evs as [|ev evs IH] using rev_ind; [discriminate|].
    rewrite notif_after_snoc. destruct (after evs) as [o c n]. cbn in IH.
    destruct ev; cbn.
    - unfold handleNotifToggle. cbn. destruct o; cbn; [lia | exact IH].
    - lia.
    - unfold fire. cbn. destruct n; cbn; [exact IH | discriminate]. }
  split; [exact Hinv|]. split.
  - intros H0. unfold panelRendered.
    destruct (isNotifClosing (after evs)); [|by rewrite orb_false_r].
    specialize (Hinv eq_refl). lia.
  - intros Hn. by rewrite (fire_all_closes _ Hn).
Qed.

End HeaderBarNotificationFacts.

(** Sorting reads the comparator on the elements of the array only. *)
Lemma insert_ext {A : Type} (c1 c2 : A → A → Z) x l :
  (∀ y, In y l → c1 x y = c2 x y) → Js.insert c1 x l = Js.insert c2 x l.
Proof.
  induction l as [|y l IH]; intros H; cbn; [reflexivity|].
  rewrite (H y) by by left. destruct (c2 x y <=? 0); [reflexivity|].
  f_equal. apply IH. intros z Hz. apply H. by right.
Qed.

Lemma sort_ext {A : Type} (c1 c2 : A → A → Z) l :
  (∀ x y, In x l → In y l → c1 x y = c2 x y) → Js.sort c1 l = Js.sort c2 l.
Proof.
  induction l as [|x l IH]; intros H; cbn; [reflexivity|].
  change (fold_right (Js.insert c1) [] l) with (Js.sort c1 l).
  change (fold_right (Js.insert c2) [] l) with (Js.sort c2 l).
  rewrite IH by (intros; apply H; by right).
  apply insert_ext. intros y Hy. apply sort_In in Hy. apply H; [by left | by right].
Qed.

(** ** The manual-override console: deleting, approving, loading *)
Section ManualConsoleFlowFacts.
Import Firestore SiteManagement SiteManagementLoad.

Ltac flow_unfold :=
  unfold run, htry, mbind, handler_bind, mret, handler_ret, hbind, hret,
    hmodify, hget, on_ui, store, alert, setTimeout, await.

(** X12: A delete button is offered only after the confirmation was opened, in
    the detail view of an approved user, for that user, and never for an
    administrator; it is disabled while that user's action is running. *)
Theorem manual_delete_control_gate (st : State) (c : Control) (userId : string) :
  In c (render st) →
  onClick c = DeleteUser userId →
  currentView st = ApprovedUserDetail
  ∧ showDeleteConfirm st = true
  ∧ disabled c = loading_is userId st
  ∧ ∃ su, selectedUser st = Some su ∧ id su = userId ∧ role (profile su) ≠ admin.
Proof.
  unfold render. intros Hin Hclick.
  apply List.in_app_iff in Hin as [Hin | Hin].
  { destruct (currentView st); cbn in Hin; intuition (subst; discriminate). }
  apply List.in_app_iff in Hin as [Hin | Hin].
  { cbn in Hin. intuition (subst; discriminate). }
  destruct (currentView st) eqn:Hview.
  - cbn in Hin. intuition (subst; discriminate).
  - destruct (isLoading st); [destruct Hin|].
    destruct (truthy_string (fetchError st)).
    { cbn in Hin. intuition (subst; discriminate). }
    apply List.in_app_iff in Hin as [Hin | Hin];
      apply List.in_map_iff in Hin as (u & <- & _); discriminate.
  - destruct (selectedUser st) as [su|]; [|destruct Hin].
    apply List.in_app_iff in Hin as [Hin | Hin].
    + destruct (negb (emailVerified (profile su))); cbn in Hin;
        intuition (subst; discriminate).
    + destruct (negb (bool_decide (status (profile su) = approved))); cbn in Hin;
        intuition (subst; discriminate).
  - split; [reflexivity|].
    destruct (selectedUser st) as [su|]; [|destruct Hin].
    destruct (decide (role (profile su) = admin)) as [E | E].
    { rewrite (bool_decide_eq_true_2 _ E) in Hin. destruct Hin. }
    rewrite (bool_decide_eq_false_2 _ E) in Hin. cbn [negb] in Hin.
    destruct (showDeleteConfirm st); cbn in Hin.
    + destruct Hin as [<- | [<- | []]]; cbn in Hclick; [discriminate|].
      injection Hclick as <-. split; [reflexivity|]. split; [reflexivity|].
      by exists su.
    + destruct Hin as [<- | []]. discriminate.
Qed.

Lemma manual_delete_control_gate_witness :
  showDeleteConfirm (ui (Cases.manualDetail Samples.rejectedUser)) = true
  ∧ role (profile Samples.rejectedUser) ≠ admin.
Proof.
  destruct (manual_delete_control_gate
              (ui (Cases.manualDetail Samples.rejectedUser))
              {| onClick := DeleteUser "uid-sam"; disabled := false |} "uid-sam")
    as (_ & Hconfirm & _ & su & Hsel & _ & Hrole).
  - cbn. right. right. right. left. reflexivity.
  - reflexivity.
  - split; [exact Hconfirm|]. injection Hsel as <-. exact Hrole.
Defined.


(** X14: An approval that goes through does not move a user whose email is not
    verified: the approved copy stays in the pending bucket, and in the
    detail view the approve and reject buttons are gone, so that resending
    the verification mail is all that is left to do there. *)
Theorem approval_keeps_unverified_pending (language now userId : string)
    (w : World) (p : UserProfile) (u : UserWithId) :
  usersCol (db w) !! userId = Some p →
  In u (users (ui w)) → id u = userId →
  let w' := run (handleApproveUser language now true true userId) w in
  let u' := on_profile (with_approval approved "admin" now) u in
  In u' (users (ui w'))
  ∧ (In u' (approvedUsers (users (ui w'))) ↔ emailVerified (profile u) = true)
  ∧ (In u' (pendingUsers (users (ui w'))) ↔ emailVerified (profile u) = false)
  ∧ (selectedUser (ui w) = Some u → currentView (ui w) = PendingUserDetail →
       render (ui w')
       = [button GoBack; button Close]
         ++ if emailVerified (profile u) then []
            else [ {| onClick := ResendVerification userId (email (profile u));
                      disabled := resendingEmail (ui w) || resendSuccess (ui w) |} ]).
Proof.
  intros Hp Hin Hid w' u'.
  assert (Husers : users (ui w') = map (approvedEntry now userId) (users (ui w))).
  { subst w'. unfold handleApproveUser. flow_unfold. unfold updateDoc, addDoc.
    cbn. rewrite Hp. cbn. by destruct (selected_is userId _). }
  assert (Hu' : approvedEntry now userId u = u').
  { unfold approvedEntry. rewrite Hid, String.eqb_refl. reflexivity. }
  assert (Hin' : In u' (users (ui w'))).
  { rewrite Husers, <- Hu'. by apply List.in_map. }
  split; [exact Hin'|]. split; [|split].
  - unfold approvedUsers. rewrite List.filter_In. subst u'. cbn.
    rewrite bool_decide_eq_true_2 by reflexivity. cbn. tauto.
  - unfold pendingUsers. rewrite List.filter_In. subst u'. cbn.
    rewrite bool_decide_eq_true_2 by reflexivity. cbn.
    rewrite orb_false_r, negb_true_iff. tauto.
  - intros Hsel Hview. subst w'. destruct w as [st d al ts]. cbn in *.
    unfold handleApproveUser. flow_unfold. unfold updateDoc, addDoc.
    cbn. rewrite Hp. cbn. unfold selected_is. cbn. rewrite Hsel, Hid.
    rewrite String.eqb_refl. cbn. unfold render. cbn. rewrite Hview, Hsel. cbn.
    rewrite bool_decide_eq_true_2 by reflexivity. cbn.
    rewrite Hid, List.app_nil_r. by destruct (emailVerified (profile u)).
Qed.

Lemma approval_keeps_unverified_pending_witness :
  In (on_profile (with_approval approved "admin" "2024-04-04T00:00:00.000Z")
        Samples.pendingUser)
     (pendingUsers (users (ui (run (handleApproveUser "en" "2024-04-04T00:00:00.000Z"
                                      true true "uid-kim")
                                   (Cases.manualPending Samples.pendingUser))))).
Proof.
  apply (proj1 (proj2 (proj2 (approval_keeps_unverified_pending
           "en" "2024-04-04T00:00:00.000Z" "uid-kim"
           (Cases.manualPending Samples.pendingUser)
           Samples.pendingProfile Samples.pendingUser
           eq_refl ltac:(left; reflexivity) eq_refl)))).
  reflexivity.
Defined.

(** X15: An approval is two writes.  When the store takes the first and refuses
    the second, the user is approved in the store but gets no notification,
    the admin is told that the approval failed, and the list on screen
    still shows the old status.  This holds in both consoles. *)
Theorem approval_half_done (language now userId : string) (wm : World)
    (ws : SiteManagementStats.World) (pm ps : UserProfile) :
  usersCol (db wm) !! userId = Some pm →
  usersCol (SiteManagementStats.db ws) !! userId = Some ps →
  let wm' := run (handleApproveUser language now true false userId) wm in
  let ws' := run (SiteManagementStats.handleApproveUser true false userId) ws in
  (usersCol (db wm') !! userId = Some (with_approval approved "admin" now pm)
   ∧ notificationsCol (db wm') = notificationsCol (db wm)
   ∧ users (ui wm') = users (ui wm)
   ∧ selectedUser (ui wm') = selectedUser (ui wm)
   ∧ alerts wm' = alerts wm ++ [Lit "Failed to approve user"]
   ∧ actionLoading (ui wm') = None)
  ∧ (usersCol (SiteManagementStats.db ws') !! userId = Some (with_status approved ps)
     ∧ notificationsCol (SiteManagementStats.db ws')
       = notificationsCol (SiteManagementStats.db ws)
     ∧ SiteManagementStats.users (SiteManagementStats.ui ws')
       = SiteManagementStats.users (SiteManagementStats.ui ws)
     ∧ SiteManagementStats.alerts ws'
       = SiteManagementStats.alerts ws ++ [Lit "Failed to approve user"]
     ∧ SiteManagementStats.actionLoading (SiteManagementStats.ui ws') = None).
Proof.
  intros Hm Hs. split.
  - unfold handleApproveUser. flow_unfold. unfold updateDoc, addDoc.
    cbn. rewrite Hm. cbn. rewrite lookup_insert_eq. repeat split; reflexivity.
  - unfold SiteManagementStats.handleApproveUser. flow_unfold.
    unfold SiteManagementStats.on_ui, SiteManagementStats.store,
      SiteManagementStats.alert, updateDoc, addDoc. flow_unfold.
    cbn. rewrite Hs. cbn. rewrite lookup_insert_eq. repeat split; reflexivity.
Qed.

Lemma approval_half_done_witness :
  status <$> (usersCol (db (run (handleApproveUser "en" "2024-04-04T00:00:00.000Z"
                                   true false "uid-kim") Samples.manualWorld))
              !! "uid-kim") = Some approved
  ∧ users (ui (run (handleApproveUser "en" "2024-04-04T00:00:00.000Z"
                      true false "uid-kim") Samples.manualWorld))
    = Samples.sampleUsers.
Proof.
  destruct (approval_half_done "en" "2024-04-04T00:00:00.000Z" "uid-kim"
              Samples.manualWorld Samples.statsWorld
              Samples.pendingProfile Samples.pendingProfile eq_refl eq_refl)
    as [(Hdoc & _ & Husers & _) _].
  split; [by rewrite Hdoc | exact Husers].
Defined.

(** X16: Loading the user list.  When the store answers, the list on screen
    holds the documents of the answer, each once, no error is shown, and
    where every [createdAt] is a date the newest comes first.  When the
    store refuses, the old list stays, an error text is set that is never
    empty, and the user view shows nothing but a retry button.  The loading
    mark is cleared in both cases, and nothing is written. *)
Theorem fetchUsers_outcomes (parseDate : string → option Z)
    (snapshot : result (list (string * UserProfile))) (w : World) :
  let w' := run (fetchUsers parseDate snapshot) w in
  isLoading (ui w') = false
  ∧ db w' = db w ∧ alerts w' = alerts w ∧ timeouts w' = timeouts w
  ∧ match snapshot with
    | Ok docs =>
        fetchError (ui w') = None
        ∧ Permutation (users (ui w')) (usersOf docs)
        ∧ (Forall (λ u, is_Some (getTime parseDate u)) (usersOf docs) →
             StronglySorted
               (λ a b, ∃ dateA dateB, getTime parseDate a = Some dateA
                                      ∧ getTime parseDate b = Some dateB
                                      ∧ dateB <= dateA)
               (users (ui w')))
    | Throw e =>
        users (ui w') = users (ui w)
        ∧ truthy_string (fetchError (ui w')) = true
        ∧ (errorMessage e ≠ EmptyString → fetchError (ui w') = Some (errorMessage e))
        ∧ (currentView (ui w) = Users →
             render (ui w') = [button GoBack; button Close; button FetchUsers])
    end.
Proof.
  destruct w as [st d al ts]. destruct snapshot as [docs | [m]].
  - cbn [run fetchUsers]. split; [reflexivity|]. split; [reflexivity|].
    split; [reflexivity|]. split; [reflexivity|]. split; [reflexivity|].
    change (users (ui (run (fetchUsers parseDate (Ok docs))
                         {| ui := st; db := d; alerts := al; timeouts := ts |})))
      with (Js.sort (newestFirst parseDate) (usersOf docs)).
    split; [apply sort_Permutation|].
    intros Hall. rewrite List.Forall_forall in Hall.
    set (key := λ u, default 0 (getTime parseDate u)).
    rewrite (sort_ext (newestFirst parseDate) (λ a b, key b - key a)).
    + eapply StronglySorted_weaken;
        [|apply (sort_StronglySorted (λ a b : UserWithId, key b - key a));
          intros; cbn beta in *; lia].
      intros x y Hx Hy Hle. cbn beta in Hle.
      apply sort_In in Hx, Hy.
      destruct (Hall x Hx) as [dateA HA], (Hall y Hy) as [dateB HB].
      exists dateA, dateB. subst key. cbn beta in Hle. rewrite HA, HB in Hle.
      cbn in Hle. repeat split; [exact HA | exact HB | lia].
    + intros x y Hx Hy.
      destruct (Hall x Hx) as [dateA HA], (Hall y Hy) as [dateB HB].
      unfold newestFirst. subst key. cbn beta. by rewrite HA, HB.
  - split; [reflexivity|]. split; [reflexivity|]. split; [reflexivity|].
    split; [reflexivity|]. split; [reflexivity|].
    change (fetchError (ui (run (fetchUsers parseDate (Throw (JsError m)))
                              {| ui := st; db := d; alerts := al; timeouts := ts |})))
      with (Some (or_string (Some m) "Failed to fetch users. Check Firestore rules.")).
    split; [by destruct m|]. split; [by destruct m|].
    intros Hview. cbn in Hview. destruct st. cbn in Hview. subst.
    by destruct m.
Qed.

Lemma fetchUsers_outcomes_witness :
  users (ui (run (fetchUsers (λ _, Some 0) (Throw (JsError EmptyString)))
               Samples.manualWorld))
  = Samples.sampleUsers
  ∧ render (ui (run (fetchUsers (λ _, Some 0) (Throw (JsError EmptyString)))
                  Samples.manualWorld))
    = [button GoBack; button Close; button FetchUsers].
Proof.
  destruct (fetchUsers_outcomes (λ _, Some 0) (Throw (JsError EmptyString))
              Samples.manualWorld) as (_ & _ & _ & _ & Husers & _ & _ & Hrender).
  split; [exact Husers | apply Hrender; reflexivity].
Defined.

End ManualConsoleFlowFacts.

(** ** The stats console: the detail view *)
Section StatsConsoleFlowFacts.
Import Firestore SiteManagementStats SiteManagementStatsDetail.

Ltac stats_unfold :=
  unfold run, htry, mbind, handler_bind, mret, handler_ret, hbind, hret,
    hmodify, hget, on_ui, store, alert, setTimeout, await.

(** The two halves of [handleDeleteUser] make up the handler. *)
Lemma handleDeleteUser_halves confirmed acceptDelete userId email (w : World) :
  run (handleDeleteUser confirmed acceptDelete userId email) w
  = run (deleteSettled confirmed acceptDelete userId)
        (run (deleteRequested confirmed userId) w).
Proof.
  destruct w as [st d al ts]. destruct confirmed; [|reflexivity].
  destruct acceptDelete; reflexivity.
Qed.






(** X19: A reminder is marked as sent only when its notification is stored, and
    once it is marked the button that sends it is gone.  When the store
    refuses, nothing is written, the mark is left as it was and the admin
    gets an alert.  The sending mark is cleared in both cases. *)
Theorem reminder_marked_only_when_stored (language : string) (acceptAdd : bool)
    (userId userEmail : string) (w : World) :
  let w' := run (sendVerificationReminder language acceptAdd userId userEmail) w in
  isSendingReminder (ui w') = false
  ∧ usersCol (db w') = usersCol (db w)
  ∧ if acceptAdd then
      reminderSent (ui w') = true
      ∧ alerts w' = alerts w
      ∧ (∃ n, notificationsCol (db w') = notificationsCol (db w) ++ [n]
              ∧ recipientUid n = userId ∧ type n = "system" ∧ read n = false)
      ∧ (∀ c i e, In c (render (ui w')) → onClick c ≠ SendVerificationReminder i e)
    else
      reminderSent (ui w') = reminderSent (ui w)
      ∧ db w' = db w
      ∧ ∃ msg, alerts w' = alerts w ++ [Lit msg].
Proof.
  destruct w as [st d al ts]. destruct acceptAdd.
  - split; [reflexivity|]. split; [reflexivity|]. split; [reflexivity|].
    split; [reflexivity|]. split.
    { eexists. split; [reflexivity|]. by repeat split. }
    intros c i e Hin Hclick.
    change (ui (run (sendVerificationReminder language true userId userEmail)
                  {| ui := st; db := d; alerts := al; timeouts := ts |}))
      with (setIsSendingReminder false (setReminderSent true
              (setIsSendingReminder true st))) in Hin.
    unfold render in Hin. cbn [currentView setIsSendingReminder setReminderSent
      isLoading fetchError users selectedUser reminderSent isSendingReminder] in Hin.
    apply List.in_app_iff in Hin as [Hin | Hin].
    { destruct (currentView st); cbn in Hin; intuition (subst; discriminate). }
    apply List.in_app_iff in Hin as [Hin | Hin].
    { cbn in Hin. intuition (subst; discriminate). }
    destruct (currentView st).
    + cbn in Hin. intuition (subst; discriminate).
    + destruct (isLoading st); [destruct Hin|].
      destruct (truthy_string (fetchError st)).
      { cbn in Hin. intuition (subst; discriminate). }
      apply List.in_app_iff in Hin as [Hin | Hin];
        apply in_concat in Hin as (l & Hl & Hin);
        apply List.in_map_iff in Hl as (u & <- & _).
      * destruct (loading_is _ _); cbn in Hin; intuition (subst; discriminate).
      * destruct (loading_is _ _); cbn in Hin; intuition (subst; discriminate).
    + destruct (selectedUser st) as [su|]; [|destruct Hin].
      destruct (negb (emailVerified (profile su))); cbn in Hin;
        intuition (subst; discriminate).
  - split; [reflexivity|]. split; [reflexivity|]. split; [reflexivity|].
    split; [reflexivity|]. eexists. reflexivity.
Qed.

Lemma stats_rejectedEntry_id userId u : id (rejectedEntry userId u) = id u.
Proof. unfold rejectedEntry. by destruct (String.eqb (id u) userId). Qed.

Lemma stats_rejectedEntry_status userId u :
  id u = userId → status (profile (rejectedEntry userId u)) = rejected.
Proof. intros <-. unfold rejectedEntry. by rewrite String.eqb_refl. Qed.

(** X20: A rejection cannot be taken back from the stats console: once it went
    through, the user is still in the list that was loaded, but the user
    view offers no control that acts on them, neither approve nor reject
    nor detail nor delete.  The manual-override console keeps such a user
    in its pending list, where the detail view can be opened. *)
Theorem rejected_user_out_of_reach (userId : string) (w : World)
    (wm : SiteManagement.World) (p pm : UserProfile) :
  usersCol (db w) !! userId = Some p →
  currentView (ui w) = Users →
  usersCol (SiteManagement.db wm) !! userId = Some pm →
  SiteManagement.currentView (SiteManagement.ui wm) = SiteManagement.Users →
  SiteManagement.isLoading (SiteManagement.ui wm) = false →
  truthy_string (SiteManagement.fetchError (SiteManagement.ui wm)) = false →
  let w' := run (handleRejectUser true true userId) w in
  let wm' := run (SiteManagement.handleRejectUser true true userId) wm in
  (∀ u, In u (users (ui w)) → id u = userId →
        In (on_profile (with_status rejected) u) (users (ui w')))
  ∧ (∀ c, In c (render (ui w')) → target (onClick c) ≠ Some userId)
  ∧ (∀ u, In u (SiteManagement.users (SiteManagement.ui wm)) → id u = userId →
        In (SiteManagement.button
              (SiteManagement.OpenPendingUserDetail
                 (on_profile (with_status rejected) u)))
           (SiteManagement.render (SiteManagement.ui wm'))).
Proof.
  intros Hp Hview Hpm Hviewm Hloadm Herrm w' wm'.
  assert (Hui : ui w' = setActionLoading None
                          (setUsers (map (rejectedEntry userId))
                             (setActionLoading (Some userId) (ui w)))).
  { subst w'. destruct w as [st d al ts]. cbn [db] in Hp.
    unfold handleRejectUser. stats_unfold. unfold updateDoc.
    cbn. by rewrite Hp. }
  assert (Huim : SiteManagement.users (SiteManagement.ui wm')
                 = map (SiteManagement.rejectedEntry userId)
                       (SiteManagement.users (SiteManagement.ui wm))
                 ∧ SiteManagement.currentView (SiteManagement.ui wm')
                   = SiteManagement.Users
                 ∧ SiteManagement.isLoading (SiteManagement.ui wm') = false
                 ∧ SiteManagement.fetchError (SiteManagement.ui wm')
                   = SiteManagement.fetchError (SiteManagement.ui wm)).
  { subst wm'. destruct wm as [st d al ts]. cbn [SiteManagement.db] in Hpm.
    cbn [SiteManagement.ui] in *.
    unfold SiteManagement.handleRejectUser. stats_unfold.
    unfold SiteManagement.on_ui, SiteManagement.store, updateDoc. stats_unfold.
    cbn. rewrite Hpm. cbn.
    destruct (SiteManagement.selected_is userId _); cbn; by repeat split. }
  split; [|split].
  - intros u Hin Hid. rewrite Hui. cbn [users setActionLoading setUsers].
    apply List.in_map_iff. exists u. split; [|exact Hin].
    unfold rejectedEntry. by rewrite Hid, String.eqb_refl.
  - intros c Hin. rewrite Hui in Hin. unfold render in Hin.
    cbn [currentView isLoading fetchError users selectedUser
         setActionLoading setUsers] in Hin.
    rewrite Hview in Hin.
    apply List.in_app_iff in Hin as [Hin | Hin].
    { destruct Hin as [<- | []]. discriminate. }
    apply List.in_app_iff in Hin as [Hin | Hin].
    { destruct Hin as [<- | []]. discriminate. }
    destruct (isLoading (ui w)); [destruct Hin|].
    destruct (truthy_string (fetchError (ui w))).
    { destruct Hin as [<- | []]. discriminate. }
    assert (Hreach : ∀ u', In u' (map (rejectedEntry userId) (users (ui w))) →
                           status (profile u') ≠ rejected → id u' ≠ userId).
    { intros u' Hu' Hst Hid. apply List.in_map_iff in Hu' as (u0 & <- & _).
      rewrite stats_rejectedEntry_id in Hid.
      by rewrite (stats_rejectedEntry_status userId u0 Hid) in Hst. }
    apply List.in_app_iff in Hin as [Hin | Hin];
      apply in_concat in Hin as (l & Hl & Hin);
      apply List.in_map_iff in Hl as (u' & <- & Hu');
      apply List.filter_In in Hu' as [Hu' Hst];
      apply bool_decide_eq_true_1 in Hst;
      assert (Hne : id u' ≠ userId) by (apply Hreach; [exact Hu' | congruence]).
    + destruct (loading_is _ _); [destruct Hin|].
      destruct Hin as [<- | [<- | []]]; cbn; congruence.
    + destruct Hin as [<- | Hin]; [cbn; congruence|].
      destruct (loading_is _ _); [destruct Hin|].
      destruct Hin as [<- | []]. cbn. congruence.
  - intros u Hin Hid. destruct Huim as (Hus & Hv & Hl & He).
    unfold SiteManagement.render. rewrite Hv, Hl, He, Herrm, Hus.
    apply List.in_app_iff. right. apply List.in_app_iff. right.
    apply List.in_app_iff. left.
    apply (List.in_map (λ u0, SiteManagement.button (SiteManagement.OpenPendingUserDetail u0))).
    apply List.filter_In. split.
    + apply List.in_map_iff. exists u. split; [|exact Hin].
      unfold SiteManagement.rejectedEntry. by rewrite Hid, String.eqb_refl.
    + cbn. rewrite bool_decide_eq_false_2 by discriminate. apply orb_true_r.
Qed.

Lemma rejected_user_out_of_reach_witness :
  In (on_profile (with_status rejected) Samples.pendingUser)
     (users (ui (run (handleRejectUser true true "uid-kim") Samples.statsWorld)))
  ∧ In (SiteManagement.button
          (SiteManagement.OpenPendingUserDetail
             (on_profile (with_status rejected) Samples.pendingUser)))
       (SiteManagement.render
          (SiteManagement.ui
             (run (SiteManagement.handleRejectUser true true "uid-kim")
                Samples.manualWorld))).
Proof.
  destruct (rejected_user_out_of_reach "uid-kim"
              Samples.statsWorld Samples.manualWorld
              Samples.pendingProfile Samples.pendingProfile
              eq_refl eq_refl eq_refl eq_refl eq_refl eq_refl)
    as (Hkept & _ & Hmanual).
  split; [apply Hkept | apply Hmanual]; first [by left | reflexivity].
Defined.

End StatsConsoleFlowFacts.

(** ** HeaderBar: when the pin list cannot be built *)
Section PinListFailureFacts.
Import HeaderBar.

Variable localeCompare : string → string → Z.

Lemma inherited_spec (k : string) :
  Js.inherited k = true ↔ In k Js.inherited_names.
Proof.
  unfold Js.inherited. rewrite List.existsb_exists. split.
  - intros (x & Hx & Heq). apply String.eqb_eq in Heq. by subst.
  - intros Hk. exists k. split; [exact Hk | apply String.eqb_refl].
Qed.

(** X21: The grouping throws exactly when the map id of some restaurant is a
    name that every object inherits, such as "constructor" or "toString":
    reading [groups[mapId]] then finds the inherited value, no group is
    created, and [restaurants.push] is called on [undefined].  One such
    restaurant anywhere in the list is enough, whichever map is active. *)
Theorem groupedByMap_throws_iff (rs : list RestaurantWithMap) (active : option string) :
  (∃ e, groupedByMap localeCompare rs active = Throw e)
  ↔ ∃ r, In r rs ∧ In (mapId r) Js.inherited_names.
Proof.
  split.
  - intros (e & He). destruct (plainMapIds rs) eqn:Hplain.
    + destruct (groupedByMap_ok localeCompare rs active Hplain) as (g & _ & Hok).
      congruence.
    + assert (Hex : ∃ r, In r rs ∧ Js.inherited (mapId r) = true).
      { clear He. induction rs as [|r rs' IH]; [discriminate|].
        change (plainMapIds (r :: rs'))
          with (negb (Js.inherited (mapId r)) && plainMapIds rs') in Hplain.
        destruct (Js.inherited (mapId r)) eqn:Hr.
        - exists r. split; [by left | exact Hr].
        - destruct (IH Hplain) as (r' & Hin & Hr'). exists r'.
          split; [by right | exact Hr']. }
      destruct Hex as (r & Hin & Hr). exists r. split; [exact Hin|].
      by apply inherited_spec.
  - intros (r & Hin & Hr). eexists.
    apply (groupedByMap_throws localeCompare). 
    destruct (plainMapIds rs) eqn:Hplain; [|reflexivity].
    rewrite plainMapIds_spec in Hplain. specialize (Hplain r Hin).
    apply inherited_spec in Hr. congruence.
Qed.

End PinListFailureFacts.

(** ** HeaderBar: names that compare equal *)

(** A stable sort keeps the input order of the elements that tie with each
    other. *)
Lemma insert_filter_ties {A : Type} (compare : A → A → Z) (t : A → bool) x l :
  (∀ a b, t a = true → t b = true → compare a b <= 0) →
  List.filter t (Js.insert compare x l) = List.filter t (x :: l).
Proof.
  intros Hties. induction l as [|y l IH]; [reflexivity|].
  cbn [Js.insert]. destruct (compare x y <=? 0) eqn:E; [reflexivity|].
  apply Z.leb_gt in E. cbn [List.filter] in *. rewrite IH.
  destruct (t x) eqn:Hx, (t y) eqn:Hy; try reflexivity.
  specialize (Hties x y Hx Hy). lia.
Qed.

Lemma sort_filter_ties {A : Type} (compare : A → A → Z) (t : A → bool) l :
  (∀ a b, t a = true → t b = true → compare a b <= 0) →
  List.filter t (Js.sort compare l) = List.filter t l.
Proof.
  intros Hties. induction l as [|x l IH]; [reflexivity|].
  change (Js.sort compare (x :: l)) with (Js.insert compare x (Js.sort compare l)).
  rewrite (insert_filter_ties compare t x _ Hties). cbn [List.filter].
  by rewrite IH.
Qed.

Section PinListTieFacts.
Import HeaderBar.

Variable localeCompare : string → string → Z.
Hypothesis localeCompare_sym :
  ∀ a b, Z.sgn (localeCompare b a) = - Z.sgn (localeCompare a b).
Hypothesis localeCompare_trans :
  ∀ a b c, localeCompare a b <= 0 → localeCompare b c <= 0 → localeCompare a c <= 0.

(** X22: Within a map, restaurants whose names compare equal are listed in
    the order in which they came in: for every name, the restaurants of a
    group that tie with it are the restaurants of that map that tie with
    it, in input order.  Together with the alphabetical order this fixes
    the order of every group. *)
Theorem equal_names_keep_input_order (rs : list RestaurantWithMap)
    (active : option string) (entries : list (string * Group))
    (k : string) (g : Group) (n : string) :
  plainMapIds rs = true →
  groupedByMap localeCompare rs active = Ok entries →
  In (k, g) entries →
  List.filter (λ r, localeCompare n (name r) =? 0) (restaurants g)
  = List.filter (λ r, localeCompare n (name r) =? 0) (ofMap k rs).
Proof.
  intros Hplain Hres Hin.
  destruct (groupedByMap_entries localeCompare localeCompare_sym localeCompare_trans
              rs active Hplain) as (entries' & Hres' & _ & _ & Hspec).
  assert (entries' = entries) as -> by congruence.
  apply Hspec in Hin as (g0 & Hb & ->).
  destruct (builtGroup_Some _ _ _ Hb) as (Hrs & _).
  change (restaurants (sortRestaurants localeCompare g0))
    with (Js.sort (byName localeCompare) (restaurants g0)).
  rewrite sort_filter_ties; [by rewrite Hrs|].
  intros a b Ha Hb'. apply Z.eqb_eq in Ha, Hb'. unfold byName.
  apply (localeCompare_trans _ n); [|lia].
  pose proof (localeCompare_sym n (name a)) as Hs. rewrite Ha in Hs.
  cbn in Hs. destruct (localeCompare (name a) n); cbn in Hs; lia.
Qed.

End PinListTieFacts.

Lemma equal_names_keep_input_order_witness :
  List.filter (λ r, Js.codeUnitCompare "Blue Bottle" (HeaderBar.name r) =? 0)
    [Samples.branchB; Samples.branchA]
  = List.filter (λ r, Js.codeUnitCompare "Blue Bottle" (HeaderBar.name r) =? 0)
      (HeaderBar.ofMap "map-home" [Samples.branchB; Samples.branchA; Samples.annFavourite]).
Proof.
  apply (equal_names_keep_input_order Js.codeUnitCompare codeUnitCompare_sym
           codeUnitCompare_trans
           [Samples.branchB; Samples.branchA; Samples.annFavourite] None
           [ ("map-ann", {| HeaderBar.groupMapName := "Favourites";
                            HeaderBar.restaurants := [Samples.annFavourite] |});
             ("map-home", {| HeaderBar.groupMapName := "Home";
                             HeaderBar.restaurants := [Samples.branchB; Samples.branchA] |}) ]
           "map-home"
           {| HeaderBar.groupMapName := "Home";
              HeaderBar.restaurants := [Samples.branchB; Samples.branchA] |}
           "Blue Bottle").
  - reflexivity.
  - reflexivity.
  - right. left. reflexivity.
Defined.
